(** * homie-monitor, [firmwares.py]: the firmware scanner

    A shallow embedding of [src-sentinel/firmwares.py] and the properties of
    it that the specification states.  The module is Python 3 code: groups of
    byte patterns are turned into text with [.decode()], and the bytes of a
    zip member are handed to [json.loads].  The embedding follows it function
    by function:

    - [Re]: the part of Python's [re] the patterns of the file use
      (pattern syntax, backtracking matcher, [search]); REGEX_HOMIE is
      never used by the file and is left out;
    - [utf8_decode]: [bytes.decode()];
    - [sizeof_fmt], [file_md5], [scan_esp_firmware], [scan_bundle_firmware],
      [scan_firmwares]: the functions of the file, over an explicit
      directory, with exceptions as values and the dictionaries the source
      mutates as state.

    [hashlib.md5], [zipfile] and [json.loads] are libraries the file calls;
    they are taken as an interface ([PyLib]). *)

From Stdlib Require Import ZArith NArith QArith Qabs Lia List Bool.
From Stdlib Require Import Strings.String Strings.Ascii Strings.Byte.
From Stdlib Require Import Numbers.DecimalString Numbers.DecimalN.
From stdpp Require Import gmap strings list fin_maps.

Set Warnings "-register-all".
Open Scope N_scope.

(** ** Text and bytes *)

(** Python [bytes] is a list of bytes; Python [str] is a list of code
    points. *)
Abbreviation bytes := (list byte).
Abbreviation text := (list N).

(** The code points of a literal. *)
Definition codes (s : string) : text :=
  List.map N_of_ascii (list_ascii_of_string s).

(** The bytes of an ASCII literal. *)
Definition bytes_of (s : string) : bytes :=
  List.map byte_of_ascii (list_ascii_of_string s).

(** ** The [re] module *)

Module Re.

(** A single-character matcher. *)
Inductive cls : Type :=
| CLit (c : N)                          (* an ordinary character *)
| CDot                                  (* [.]: anything but a line feed *)
| CDigit                                (* [\d] *)
| CSet (neg : bool) (members : list N). (* [[...]] and [[^...]] *)

(** Greedy quantifiers: none, [?], [*], [+]. *)
Inductive quant : Type := Once | Opt | Star | Plus.

Inductive item : Type :=
| Atom (q : quant) (k : cls)
| Bol (multiline : bool)                (* [^] *)
| GOpen                                 (* [(] *)
| GClose.                               (* [)] *)

Abbreviation regex := (list item).

(** *** Pattern syntax

    [compile] reads a pattern one character at a time.  It covers what the
    patterns of [firmwares.py] are made of: ordinary characters, [.], [^],
    one level of capturing groups, the quantifiers [?], [*] and [+] after a
    single character, [\d], an escaped punctuation character, and character
    sets without ranges.  Everything else is refused with [None]. *)

Inductive pmode : Type :=
| PTop
| PEsc
| PSetStart
| PSet (neg : bool) (acc : list N)
| PSetEsc (neg : bool) (acc : list N).

Record pstate : Type := PState {
  p_mode : pmode;
  p_depth : nat;            (* groups currently open *)
  p_out : list item         (* items read so far, last first *)
}.

Definition is_alnum (c : N) : bool :=
  ((48 <=? c) && (c <=? 57)) || ((65 <=? c) && (c <=? 90))
  || ((97 <=? c) && (c <=? 122)).

Definition requant (q : quant) (st : pstate) : option pstate :=
  match p_out st with
  | Atom Once k :: out => Some (PState PTop (p_depth st) (Atom q k :: out))
  | _ => None
  end.

Definition emit (i : item) (st : pstate) : option pstate :=
  Some (PState PTop (p_depth st) (i :: p_out st)).

Definition pstep (multiline : bool) (st : pstate) (c : N) : option pstate :=
  match p_mode st with
  | PTop =>
      if c =? 92 then Some (PState PEsc (p_depth st) (p_out st))          (* \ *)
      else if c =? 91 then Some (PState PSetStart (p_depth st) (p_out st)) (* [ *)
      else if c =? 94 then emit (Bol multiline) st                        (* ^ *)
      else if c =? 40 then                                                (* ( *)
        match p_depth st with
        | O => Some (PState PTop 1 (GOpen :: p_out st))
        | S _ => None
        end
      else if c =? 41 then                                                (* ) *)
        match p_depth st with
        | O => None
        | S d => Some (PState PTop d (GClose :: p_out st))
        end
      else if c =? 46 then emit (Atom Once CDot) st                       (* . *)
      else if c =? 63 then requant Opt st                                 (* ? *)
      else if c =? 42 then requant Star st                                (* * *)
      else if c =? 43 then requant Plus st                                (* + *)
      else if (c =? 123) || (c =? 125) || (c =? 124) || (c =? 36) || (c =? 93)
      then None                                                  (* { } | $ ] *)
      else emit (Atom Once (CLit c)) st
  | PEsc =>
      if c =? 100 then emit (Atom Once CDigit) st                         (* \d *)
      else if is_alnum c then None
      else emit (Atom Once (CLit c)) st
  | PSetStart =>
      if c =? 94 then Some (PState (PSet true []) (p_depth st) (p_out st))
      else if c =? 92 then Some (PState (PSetEsc false []) (p_depth st) (p_out st))
      else if (c =? 93) || (c =? 45) then None
      else Some (PState (PSet false [c]) (p_depth st) (p_out st))
  | PSet neg acc =>
      if c =? 93 then
        match acc with
        | [] => None
        | _ => emit (Atom Once (CSet neg (rev acc))) st
        end
      else if c =? 92 then Some (PState (PSetEsc neg acc) (p_depth st) (p_out st))
      else if c =? 45 then None
      else Some (PState (PSet neg (c :: acc)) (p_depth st) (p_out st))
  | PSetEsc neg acc =>
      if is_alnum c then None
      else Some (PState (PSet neg (c :: acc)) (p_depth st) (p_out st))
  end.

Fixpoint pfold (multiline : bool) (st : pstate) (pat : list N) : option pstate :=
  match pat with
  | [] => Some st
  | c :: pat' =>
      match pstep multiline st c with
      | Some st' => pfold multiline st' pat'
      | None => None
      end
  end.

Definition compile (multiline : bool) (pat : list N) : option regex :=
  match pfold multiline (PState PTop 0 []) pat with
  | Some (PState PTop O out) => Some (rev out)
  | _ => None
  end.

(** *** Matching *)

Definition cls_match (k : cls) (c : N) : bool :=
  match k with
  | CLit l => c =? l
  | CDot => negb (c =? 10)
  | CDigit => (48 <=? c) && (c <=? 57)
  | CSet neg members => xorb neg (existsb (N.eqb c) members)
  end.

Section Matcher.

(** The subject is a list of [A]: bytes for a byte pattern, code points for
    a text pattern; [code] is the number of a character. *)
Context {A : Type} (code : A -> N).

(** Groups: the characters of the group being read, last first, and the
    groups already closed, in order. *)
Record caps : Type := Caps {
  cur : option (list A);
  closed : list (list A)
}.

Definition no_caps : caps := Caps None [].

Definition push (x : A) (c : caps) : caps :=
  match cur c with
  | Some l => Caps (Some (x :: l)) (closed c)
  | None => c
  end.

Definition open_group (c : caps) : caps := Caps (Some []) (closed c).

Definition close_group (c : caps) : caps :=
  match cur c with
  | Some l => Caps None (closed c ++ [rev l])
  | None => c
  end.

Definition at_bol (multiline : bool) (prev : option A) : bool :=
  match prev with
  | None => true
  | Some x => multiline && (code x =? 10)
  end.

Definition accepts (k : cls) (x : A) : bool := cls_match k (code x).

(** [k*] followed by the continuation [cont]: as many characters as
    possible, then one fewer, and so on down to none. *)
Fixpoint greedy (k : cls) (cont : option A -> list A -> caps -> option caps)
    (prev : option A) (s : list A) (c : caps) : option caps :=
  match s with
  | x :: s' =>
      if accepts k x then
        match greedy k cont (Some x) s' (push x c) with
        | Some r => Some r
        | None => cont prev s c
        end
      else cont prev s c
  | [] => cont prev s c
  end.

(** The backtracking matcher: [match_here r prev s c] matches [r] at the
    head of [s]; [prev] is the character before [s]. *)
Fixpoint match_here (r : regex) (prev : option A) (s : list A) (c : caps)
    : option caps :=
  match r with
  | [] => Some c
  | Bol m :: r' => if at_bol m prev then match_here r' prev s c else None
  | GOpen :: r' => match_here r' prev s (open_group c)
  | GClose :: r' => match_here r' prev s (close_group c)
  | Atom Once k :: r' =>
      match s with
      | x :: s' =>
          if accepts k x then match_here r' (Some x) s' (push x c) else None
      | [] => None
      end
  | Atom Opt k :: r' =>
      match s with
      | x :: s' =>
          if accepts k x then
            match match_here r' (Some x) s' (push x c) with
            | Some res => Some res
            | None => match_here r' prev s c
            end
          else match_here r' prev s c
      | [] => match_here r' prev s c
      end
  | Atom Star k :: r' => greedy k (match_here r') prev s c
  | Atom Plus k :: r' =>
      match s with
      | x :: s' =>
          if accepts k x then greedy k (match_here r') (Some x) s' (push x c)
          else None
      | [] => None
      end
  end.

(** [search]: the leftmost start at which the pattern matches.  The result
    is the list of the groups, [group(1)] first. *)
Fixpoint search_from (r : regex) (prev : option A) (s : list A)
    : option (list (list A)) :=
  match match_here r prev s no_caps with
  | Some c => Some (closed c)
  | None =>
      match s with
      | x :: s' => search_from r (Some x) s'
      | [] => None
      end
  end.

Definition search (r : regex) (s : list A) : option (list (list A)) :=
  search_from r None s.

End Matcher.

Definition group {A} (n : nat) (m : list (list A)) : list A :=
  nth (n - 1) m [].

End Re.

(** ** The patterns of the module *)

(** Pattern literals, character by character.  [bsq] is the two characters
    backslash, double quote of a raw literal. *)
Definition bsq : text := [92; 34].

(** REGEX_NAME: the bytes bf 84 e4 13 54, then (.+), then 93 44 6b a7 75.
    The hexadecimal escapes of a bytes literal are resolved by Python before
    [re] reads the pattern, so [re] sees the bytes themselves. *)
Definition REGEX_NAME_pattern : list N :=
  [0xbf; 0x84; 0xe4; 0x13; 0x54] ++ codes "(.+)" ++ [0x93; 0x44; 0x6b; 0xa7; 0x75].

(** REGEX_VERSION: 6a 3f 3e 0e e1 (.+) b0 30 48 d4 1a. *)
Definition REGEX_VERSION_pattern : list N :=
  [0x6a; 0x3f; 0x3e; 0x0e; 0xe1] ++ codes "(.+)" ++ [0xb0; 0x30; 0x48; 0xd4; 0x1a].

(** REGEX_BRAND: fb 2a f5 68 c0 (.+) 6e 2f 0f eb 2d. *)
Definition REGEX_BRAND_pattern : list N :=
  [0xfb; 0x2a; 0xf5; 0x68; 0xc0] ++ codes "(.+)" ++ [0x6e; 0x2f; 0x0f; 0xeb; 0x2d].

(** REGEX_PYTHON_VERSION, a raw literal: ^__version__ = , a set of the two
    quotes, a group of non-quotes, a set of the two quotes. *)
Definition REGEX_PYTHON_VERSION_pattern : list N :=
  codes "^__version__ = ['" ++ bsq ++ codes "]([^'" ++ bsq ++ codes "]*)['"
  ++ bsq ++ codes "]".

(** REGEX_PYTHON_DESC, a raw literal: ^, three escaped double quotes, a
    group over the negated set written (?: three escaped double quotes ),
    three escaped double quotes. *)
Definition REGEX_PYTHON_DESC_pattern : list N :=
  codes "^" ++ bsq ++ bsq ++ bsq ++ codes "([^(?:" ++ bsq ++ bsq ++ bsq
  ++ codes ")]*)" ++ bsq ++ bsq ++ bsq.

(** The pattern of the file name convention, compiled inside
    [scan_firmwares]. *)
Definition REGEX_FILENAME_pattern : list N :=
  codes "(.*)\-(\d+\.\d+\.\d+)".

(** [re.compile]: a pattern [compile] refuses would be an error when the
    module is loaded; none of the six is refused (see [patterns_compile]). *)
Definition re_compile (multiline : bool) (pat : list N) : Re.regex :=
  default [] (Re.compile multiline pat).

Definition REGEX_NAME : Re.regex :=
  Eval vm_compute in re_compile false REGEX_NAME_pattern.
Definition REGEX_VERSION : Re.regex :=
  Eval vm_compute in re_compile false REGEX_VERSION_pattern.
Definition REGEX_BRAND : Re.regex :=
  Eval vm_compute in re_compile false REGEX_BRAND_pattern.
Definition REGEX_PYTHON_VERSION : Re.regex :=
  Eval vm_compute in re_compile true REGEX_PYTHON_VERSION_pattern.
Definition REGEX_PYTHON_DESC : Re.regex :=
  Eval vm_compute in re_compile true REGEX_PYTHON_DESC_pattern.
Definition REGEX_FILENAME : Re.regex :=
  Eval vm_compute in re_compile false REGEX_FILENAME_pattern.

(** ** Python values, exceptions and statements *)

(** The objects a record can hold: text, and whatever [json.loads] returns
    for a manifest field. *)
Inductive pyobj : Type :=
| PNone
| PBool (b : bool)
| PInt (z : Z)
| PFloat (q : Q)
| PStr (s : text)
| PList (l : list pyobj)
| PDict (d : list (text * pyobj)).

(** The exceptions that can be raised in [firmwares.py]; all of them are
    subclasses of [Exception]. *)
Inductive exn : Type :=
| OSError              (* open() or read() failed *)
| UnicodeDecodeError   (* bytes.decode(), read() of a text file *)
| KeyError             (* ZipFile.getinfo, dict subscript *)
| TypeError            (* wrong kind of object *)
| ValueError           (* json.loads: JSONDecodeError *)
| OverflowError        (* int too large to convert to float *)
| BadZipFile.

Inductive outcome (A : Type) : Type :=
| Ok (a : A)
| Raise (e : exn).
Arguments Ok {A} a.
Arguments Raise {A} e.

(** A record of the output is a Python dict with text keys. *)
Abbreviation record := (gmap string pyobj).

(** Statements that mutate one record and may raise: the record after the
    statement, and how it ended.  What was assigned before an exception
    stays assigned. *)
Definition stmt (A : Type) : Type := record -> record * outcome A.

Definition ret {A} (a : A) : stmt A := fun db => (db, Ok a).
Definition raise {A} (e : exn) : stmt A := fun db => (db, Raise e).
Definition bind {A B} (m : stmt A) (f : A -> stmt B) : stmt B :=
  fun db =>
    match m db with
    | (db', Ok a) => f a db'
    | (db', Raise e) => (db', Raise e)
    end.
Definition lift {A} (o : outcome A) : stmt A := fun db => (db, o).

Declare Scope stmt_scope.
Delimit Scope stmt_scope with stmt.
Bind Scope stmt_scope with stmt.
Notation "x <- m ;; f" := (bind m (fun x => f))
  (at level 100, m at next level, f at level 200, right associativity)
  : stmt_scope.
Notation "m ;; f" := (bind m (fun _ => f))
  (at level 100, f at level 200, right associativity) : stmt_scope.

(** [db[key] = v] *)
Definition setitem (key : string) (v : pyobj) : stmt unit :=
  fun db => (<[key := v]> db, Ok tt).

(** [key in db] *)
Definition contains (key : string) : stmt bool :=
  fun db => (db, Ok (bool_decide (is_Some (db !! key)))).

(** [if c: body] *)
Definition when (c : bool) (body : stmt unit) : stmt unit :=
  if c then body else ret tt.

(** [try: body / except Exception: pass / else: orelse] *)
Definition try_except_pass_else (body orelse : stmt unit) : stmt unit :=
  fun db =>
    match body db with
    | (db', Ok _) => orelse db'
    | (db', Raise _) => (db', Ok tt)
    end.

(** ** [bytes.decode()] and text files *)

Definition is_cont (n : N) : bool := (0x80 <=? n) && (n <=? 0xBF).

(** [bytes.decode()]: UTF-8, errors are strict.  [None] stands for
    [UnicodeDecodeError]. *)
Fixpoint utf8_decode (s : bytes) : option text :=
  match s with
  | [] => Some []
  | b0 :: s1 =>
      let n0 := Byte.to_N b0 in
      if n0 <? 0x80 then cons n0 <$> utf8_decode s1
      else
        match s1 with
        | [] => None
        | b1 :: s2 =>
            let n1 := Byte.to_N b1 in
            if (0xC2 <=? n0) && (n0 <=? 0xDF) then
              if is_cont n1
              then cons ((n0 - 0xC0) * 64 + (n1 - 0x80)) <$> utf8_decode s2
              else None
            else
              match s2 with
              | [] => None
              | b2 :: s3 =>
                  let n2 := Byte.to_N b2 in
                  if (0xE0 <=? n0) && (n0 <=? 0xEF) then
                    if is_cont n1 && is_cont n2
                       && negb ((n0 =? 0xE0) && (n1 <? 0xA0))
                       && negb ((n0 =? 0xED) && (0xA0 <=? n1))
                    then cons ((n0 - 0xE0) * 4096 + (n1 - 0x80) * 64 + (n2 - 0x80))
                           <$> utf8_decode s3
                    else None
                  else
                    match s3 with
                    | [] => None
                    | b3 :: s4 =>
                        let n3 := Byte.to_N b3 in
                        if (0xF0 <=? n0) && (n0 <=? 0xF4)
                           && is_cont n1 && is_cont n2 && is_cont n3
                           && negb ((n0 =? 0xF0) && (n1 <? 0x90))
                           && negb ((n0 =? 0xF4) && (0x90 <=? n1))
                        then cons ((n0 - 0xF0) * 262144 + (n1 - 0x80) * 4096
                                   + (n2 - 0x80) * 64 + (n3 - 0x80))
                               <$> utf8_decode s4
                        else None
                    end
              end
        end
  end.

Definition decode (b : bytes) : outcome text :=
  match utf8_decode b with
  | Some t => Ok t
  | None => Raise UnicodeDecodeError
  end.

(** Reading a file opened in text mode translates the line ends CR LF and
    CR to LF. *)
Fixpoint universal_newlines (t : text) : text :=
  match t with
  | 13 :: ((10 :: t') as rest) => 10 :: universal_newlines t'
  | 13 :: t' => 10 :: universal_newlines t'
  | c :: t' => c :: universal_newlines t'
  | [] => []
  end.

(** ** Numbers and [sizeof_fmt] *)

(** The loop variable of [sizeof_fmt] is the integer it was called with
    until the first division and a float afterwards.  A float is modelled by
    the rational it denotes; the operations below are exact on floats
    (comparison, division of a number of magnitude 1024 or more by the power
    of two 1024.0), except the conversion of a big integer, which rounds. *)
Inductive number : Type :=
| Int (z : Z)
| Float (q : Q).

Definition Qltb (x y : Q) : bool :=
  (Qnum x * QDen y <? Qnum y * QDen x)%Z.

(** [float(z)]: the nearest number with a 53 bit mantissa, ties to even;
    [None] is OverflowError (int too large to convert to float). *)
Definition float_of_int (z : Z) : option Q :=
  let a := Z.abs z in
  if (a <? 2 ^ 53)%Z then Some (inject_Z z)
  else
    let e := (Z.log2 a - 52)%Z in
    let q := (a / 2 ^ e)%Z in
    let r := (a mod 2 ^ e)%Z in
    let half := (2 ^ (e - 1))%Z in
    let q' := if (half <? r)%Z || ((r =? half)%Z && Z.odd q)
              then (q + 1)%Z else q in
    let v := (q' * 2 ^ e)%Z in
    if (v <? 2 ^ 1024)%Z then Some (inject_Z (Z.sgn z * v)) else None.

Definition to_float (x : number) : outcome Q :=
  match x with
  | Int z =>
      match float_of_int z with
      | Some q => Ok q
      | None => Raise OverflowError
      end
  | Float q => Ok q
  end.

(** [abs(num) < 1024.0]: Python compares an int with a float exactly. *)
Definition abs_lt_1024 (x : number) : bool :=
  match x with
  | Int z => (Z.abs z <? 1024)%Z
  | Float q => Qltb (Qabs q) (1024 # 1)
  end.

(** [num /= 1024.0] *)
Definition div_1024 (x : number) : outcome number :=
  match to_float x with
  | Ok q => Ok (Float (q / (1024 # 1)))
  | Raise e => Raise e
  end.

(** The nearest integer to a non-negative rational, ties to even. *)
Definition round_half_even (x : Q) : Z :=
  let n := Qnum x in
  let d := QDen x in
  let f := (n / d)%Z in
  let r := (n mod d)%Z in
  if (2 * r <? d)%Z then f
  else if (d <? 2 * r)%Z then (f + 1)%Z
  else if Z.even f then f else (f + 1)%Z.

Definition decimal (z : Z) : text :=
  codes (NilZero.string_of_uint (N.to_uint (Z.to_N z))).

(** ["%3.1f"] (and ["%.1f"]: the result is never shorter than three
    characters) of a float: the decimal with one digit after the point that
    is nearest to the float, ties to even. *)
Definition fmt_1f (q : Q) : text :=
  let t := round_half_even (Qabs q * (10 # 1)) in
  (if Qltb q 0 then codes "-" else [])
  ++ decimal (t / 10) ++ codes "." ++ decimal (t mod 10).

Definition format_1f (x : number) : outcome text :=
  match to_float x with
  | Ok q => Ok (fmt_1f q)
  | Raise e => Raise e
  end.

Fixpoint sizeof_loop (units : list string) (num : number) (suffix : text)
    : outcome text :=
  match units with
  | unit :: units' =>
      if abs_lt_1024 num then
        match format_1f num with
        | Ok v => Ok (v ++ codes unit ++ suffix)
        | Raise e => Raise e
        end
      else
        match div_1024 num with
        | Ok num' => sizeof_loop units' num' suffix
        | Raise e => Raise e
        end
  | [] =>
      match format_1f num with
      | Ok v => Ok (v ++ codes "Y" ++ suffix)
      | Raise e => Raise e
      end
  end.

Definition UNITS : list string := [""; "K"; "M"; "G"; "T"; "P"; "E"; "Z"]%string.

(** Format file size in a human readable way. *)
Definition sizeof_fmt (num : number) : outcome text :=
  sizeof_loop UNITS num (codes "B").

(** ** The directory *)

(** A directory entry as the scanner sees it: whether [os.path.isfile]
    holds, the size [os.stat] reports, and the content, [None] when the file
    cannot be opened for reading. *)
Record node : Type := Node {
  is_file : bool;
  st_size : Z;
  content : option bytes
}.

(** A directory in the order [os.listdir] lists it.  Names are strings of
    characters below 256; [codes] gives their code points.  ([\d] also
    matches decimal digits outside ASCII, but none of them lies below 256,
    so [Re.CDigit] is exact on these names.) *)
Abbreviation directory := (list (string * node)).

(** The entry [os.path.join(path, name)] names. *)
Fixpoint dir_lookup (dir : directory) (name : text) : option node :=
  match dir with
  | [] => None
  | (n, nd) :: dir' =>
      if bool_decide (codes n = name) then Some nd else dir_lookup dir' name
  end.

Definition listdir (dir : directory) : list string := List.map fst dir.

Definition isfile (dir : directory) (name : text) : bool :=
  match dir_lookup dir name with
  | Some nd => is_file nd
  | None => false
  end.

(** [open(p, "rb").read()] *)
Definition read_binary (dir : directory) (name : text) : outcome bytes :=
  match dir_lookup dir name with
  | Some (Node _ _ (Some data)) => Ok data
  | _ => Raise OSError
  end.

(** [open(p, "r").read()], with UTF-8 as the encoding of the locale. *)
Definition read_text (dir : directory) (name : text) : outcome text :=
  match read_binary dir name with
  | Ok data =>
      match utf8_decode data with
      | Some t => Ok (universal_newlines t)
      | None => Raise UnicodeDecodeError
      end
  | Raise e => Raise e
  end.

(** [os.path.splitext] of a name without a directory part: the extension
    starts at the last dot, unless only dots come before it. *)
Fixpoint rfind_dot (p : text) : option nat :=
  match p with
  | [] => None
  | c :: p' =>
      match rfind_dot p' with
      | Some i => Some (S i)
      | None => if c =? 46 then Some O else None
      end
  end.

Definition splitext (p : text) : text * text :=
  match rfind_dot p with
  | Some dotIndex =>
      if existsb (fun c => negb (c =? 46)) (take dotIndex p)
      then (take dotIndex p, drop dotIndex p)
      else (p, [])
  | None => (p, [])
  end.

(** ** The libraries the module calls *)

Class PyLib : Type := {
  (** [hashlib.md5()], [update], [hexdigest] *)
  md5_state : Type;
  md5_new : md5_state;
  md5_update : md5_state -> bytes -> md5_state;
  md5_hexdigest : md5_state -> text;
  (** [zipfile.is_zipfile] on the content of a file *)
  zip_magic : bytes -> bool;
  (** [zipfile.ZipFile(p, "r")]: the members by name, [None] when the
      constructor raises BadZipFile *)
  zip_members : bytes -> option (gmap string bytes);
  (** [json.loads], [None] when it raises *)
  json_loads : bytes -> option pyobj
}.

(** What [re.search] is given: [str] or [bytes]. *)
Inductive subject : Type :=
| SStr (s : text)
| SBytes (b : bytes).

(** [re.search] with a bytes pattern. *)
Definition re_search_bytes (r : Re.regex) (s : subject)
    : outcome (option (list bytes)) :=
  match s with
  | SBytes b => Ok (Re.search Byte.to_N r b)
  | SStr _ => Raise TypeError    (* cannot use a bytes pattern on a string-like object *)
  end.

(** [re.search] with a str pattern. *)
Definition re_search_str (r : Re.regex) (s : subject)
    : outcome (option (list text)) :=
  match s with
  | SStr t => Ok (Re.search id r t)
  | SBytes _ => Raise TypeError  (* cannot use a string pattern on a bytes-like object *)
  end.

(** [obj[key]] for a text key. *)
Fixpoint dict_get (d : list (text * pyobj)) (key : text) : option pyobj :=
  match d with
  | [] => None
  | (k, v) :: d' => if bool_decide (k = key) then Some v else dict_get d' key
  end.

Definition getitem (obj : pyobj) (key : string) : outcome pyobj :=
  match obj with
  | PDict d =>
      match dict_get d (codes key) with
      | Some v => Ok v
      | None => Raise KeyError
      end
  | _ => Raise TypeError
  end.

Definition BUFFER_SIZE : nat := 4096.

(** The chunks [f.read(BUFFER_SIZE)] returns until it returns the empty
    bytes; [fuel] bounds the number of reads. *)
Fixpoint read_chunks (fuel : nat) (rest : bytes) : list bytes :=
  match fuel with
  | O => []
  | S fuel' =>
      match take BUFFER_SIZE rest with
      | [] => []
      | chunk => chunk :: read_chunks fuel' (drop BUFFER_SIZE rest)
      end
  end.

Section Scanner.

Context `{PyLib}.

(** The digest of a content: every chunk is fed to a fresh hash. *)
Definition md5_of (data : bytes) : text :=
  md5_hexdigest
    (fold_left md5_update (read_chunks (S (length data)) data) md5_new).

(** Calculate MD5 hash for a given file. *)
Definition file_md5 (dir : directory) (path : text) : outcome text :=
  match read_binary dir path with
  | Ok data => Ok (md5_of data)
  | Raise e => Raise e
  end.

Definition is_zipfile (dir : directory) (path : text) : bool :=
  match read_binary dir path with
  | Ok data => zip_magic data
  | Raise _ => false
  end.

Definition ZipFile (dir : directory) (path : text)
    : outcome (gmap string bytes) :=
  match read_binary dir path with
  | Ok data =>
      match zip_members data with
      | Some bundle => Ok bundle
      | None => Raise BadZipFile
      end
  | Raise e => Raise e
  end.

(** [bundle.getinfo(name)] and [bundle.read(name)] *)
Definition zip_read (bundle : gmap string bytes) (name : string)
    : outcome bytes :=
  match bundle !! name with
  | Some data => Ok data
  | None => Raise KeyError
  end.

Definition loads (data : bytes) : outcome pyobj :=
  match json_loads data with
  | Some v => Ok v
  | None => Raise ValueError
  end.

Open Scope stmt_scope.

(** [if result: db[key] = result.group(1).decode()] *)
Definition set_decoded (key : string) (result : option (list bytes))
    : stmt unit :=
  match result with
  | Some m => v <- lift (decode (Re.group 1 m)) ;; setitem key (PStr v)
  | None => ret tt
  end.

(** The end of [scan_esp_firmware]: the text file beside the image, when
    there is one, is the description. *)
Definition read_description (dir : directory) (fw_file : text) : stmt unit :=
  let fw_file_name := fst (splitext fw_file) in
  let fw_desc_path := fw_file_name ++ codes ".txt" in
  when (isfile dir fw_desc_path)
    (desc <- lift (read_text dir fw_desc_path) ;;
     setitem "description" (PStr desc)).

(** Detect ESP compatible firmwares. *)
Definition scan_esp_firmware (dir : directory) (fw_file : text) : stmt unit :=
  setitem "type" (PStr (codes "esp8266")) ;;
  firmware_binary <- lift (read_binary dir fw_file) ;;
  regex_name_result <- lift (re_search_bytes REGEX_NAME (SBytes firmware_binary)) ;;
  regex_version_result <- lift (re_search_bytes REGEX_VERSION (SBytes firmware_binary)) ;;
  regex_brand_result <- lift (re_search_bytes REGEX_BRAND (SBytes firmware_binary)) ;;
  set_decoded "name" regex_name_result ;;
  set_decoded "version" regex_version_result ;;
  set_decoded "brand" regex_brand_result ;;
  read_description dir fw_file.

(** [if result: db[key] = result.group(1)] *)
Definition set_group (key : string) (result : option (list text))
    : stmt unit :=
  match result with
  | Some m => setitem key (PStr (Re.group 1 m))
  | None => ret tt
  end.

(** The two probes of [scan_bundle_firmware]. *)
Definition probe_main_py (bundle : gmap string bytes) : stmt unit :=
  try_except_pass_else
    (_ <- lift (zip_read bundle "main.py") ;;
     main_as_text <- lift (zip_read bundle "main.py") ;;
     version_result <- lift (re_search_str REGEX_PYTHON_VERSION (SBytes main_as_text)) ;;
     set_group "version" version_result ;;
     description_result <- lift (re_search_str REGEX_PYTHON_DESC (SBytes main_as_text)) ;;
     set_group "description" description_result)
    (setitem "type" (PStr (codes "python"))).

Definition probe_package_json (bundle : gmap string bytes) : stmt unit :=
  try_except_pass_else
    (_ <- lift (zip_read bundle "package.json") ;;
     data <- lift (zip_read bundle "package.json") ;;
     package <- lift (loads data) ;;
     description <- lift (getitem package "description") ;;
     setitem "description" description ;;
     version <- lift (getitem package "version") ;;
     setitem "version" version)
    (setitem "type" (PStr (codes "javascript"))).

(** Scan desktop bundle compatible firmwares (python, javascript). *)
Definition scan_bundle_firmware (dir : directory) (fw_file : text)
    : stmt unit :=
  if negb (is_zipfile dir fw_file) then ret tt
  else
    bundle <- lift (ZipFile dir fw_file) ;;
    probe_main_py bundle ;;
    probe_package_json bundle.

(** [fw_types[fw_file_ext]] *)
Definition fw_types (fw_file_ext : text)
    : option (directory -> text -> stmt unit) :=
  if bool_decide (fw_file_ext = codes ".bin") then Some scan_esp_firmware
  else if bool_decide (fw_file_ext = codes ".zip") then Some scan_bundle_firmware
  else None.

(** The body of the loop of [scan_firmwares] from the creation of the
    record on, as statements on that record. *)
Definition fill_record (dir : directory) (fw_file : string)
    (fw_file_ext : text) (regex_result : list text) : stmt unit :=
  setitem "filename" (PStr (codes fw_file)) ;;
  match fw_types fw_file_ext with
  | Some scan => scan dir (codes fw_file)
  | None => raise KeyError
  end ;;
  has_name <- contains "name" ;;
  when (negb has_name) (setitem "name" (PStr (Re.group 1 regex_result))) ;;
  setitem "filename_version" (PStr (Re.group 2 regex_result)) ;;
  stat <- lift (match dir_lookup dir (codes fw_file) with
                | Some nd => Ok nd
                | None => Raise OSError
                end) ;;
  human_size <- lift (sizeof_fmt (Int (st_size stat))) ;;
  setitem "human_size" (PStr human_size) ;;
  checksum <- lift (file_md5 dir (codes fw_file)) ;;
  setitem "checksum" (PStr checksum).

Close Scope stmt_scope.

(** One turn of the loop of [scan_firmwares].  [firmware_info] is the very
    dict stored at [db[fw_file]], so the record is in [db] with whatever was
    assigned when an exception leaves the loop. *)
Definition scan_entry (dir : directory) (fw_file : string)
    (db : gmap string record) : gmap string record * outcome unit :=
  if negb (isfile dir (codes fw_file)) then (db, Ok tt)
  else
    let '(fw_file_name, fw_file_ext) := splitext (codes fw_file) in
    if negb (bool_decide (fw_file_ext ∈ [codes ".bin"; codes ".zip"]))
    then (db, Ok tt)
    else
      match Re.search id REGEX_FILENAME fw_file_name with
      | None => (db, Ok tt)
      | Some regex_result =>
          let '(firmware_info, out) :=
            fill_record dir fw_file fw_file_ext regex_result ∅ in
          (<[fw_file := firmware_info]> db, out)
      end.

Fixpoint scan_loop (dir : directory) (names : list string)
    (db : gmap string record) : gmap string record * outcome unit :=
  match names with
  | [] => (db, Ok tt)
  | fw_file :: names' =>
      match scan_entry dir fw_file db with
      | (db', Ok _) => scan_loop dir names' db'
      | (db', Raise e) => (db', Raise e)
      end
  end.

(** Scan local firmware files. *)
Definition scan_firmwares (dir : directory) (db : gmap string record)
    : gmap string record * outcome unit :=
  scan_loop dir (listdir dir) db.

End Scanner.

(** * What the properties are stated with *)

(** ** The size formatter *)

(** The units in the order the specification lists them. *)
Definition UNIT_NAMES : list string :=
  [""; "K"; "M"; "G"; "T"; "P"; "E"; "Z"; "Y"]%string.

(** [x] divided by 1024 once per unit step. *)
Definition scaled (x : Q) (k : nat) : Q :=
  Nat.iter k (fun v => v / (1024 # 1))%Q x.

(** The magnitude of [x] is below 1024. *)
Definition below_1024 (x : Q) : bool := Qltb (Qabs x) (1024 # 1).

(** ** Patterns and the words they match *)

(** How many characters a quantified atom may take. *)
Definition reps (q : Re.quant) (n : nat) : Prop :=
  match q with
  | Re.Once => n = 1%nat
  | Re.Opt => (n <= 1)%nat
  | Re.Star => True
  | Re.Plus => (1 <= n)%nat
  end.

Section Words.

Context {A : Type} (code : A -> N).

(** The words a pattern can match, anchors and groups left aside. *)
Fixpoint lang (r : Re.regex) (w : list A) : Prop :=
  match r with
  | [] => w = []
  | Re.Atom q k :: r' =>
      exists w1 w2, w = w1 ++ w2 /\
        Forall (fun x => Re.accepts code k x = true) w1 /\
        reps q (length w1) /\ lang r' w2
  | _ :: r' => lang r' w
  end.

(** The pattern of a literal sequence. *)
Definition lits (m : list A) : Re.regex :=
  List.map (fun x => Re.Atom Re.Once (Re.CLit (code x))) m.

(** The groups after the characters [w] were read. *)
Definition pushes (w : list A) (c : Re.caps) : Re.caps :=
  fold_left (fun c x => Re.push x c) w c.

(** The tail shared by the three marker patterns: a group of one or more
    characters other than a line feed, then the closing sequence. *)
Definition span_then (closing : list A) : Re.regex :=
  [Re.GOpen; Re.Atom Re.Plus Re.CDot; Re.GClose] ++ lits closing.

End Words.

Section WordsWithGroups.

Context {A : Type} (code : A -> N).


End WordsWithGroups.

(** ** The marker pairs of a native image *)

(** The opening and closing sequences the images embed, as the three
    patterns spell them. *)
Definition NAME_OPEN : bytes := [xbf; x84; xe4; x13; x54].
Definition NAME_CLOSE : bytes := [x93; x44; x6b; xa7; x75].
Definition VERSION_OPEN : bytes := [x6a; x3f; x3e; x0e; xe1].
Definition VERSION_CLOSE : bytes := [xb0; x30; x48; xd4; x1a].
Definition BRAND_OPEN : bytes := [xfb; x2a; xf5; x68; xc0].
Definition BRAND_CLOSE : bytes := [x6e; x2f; x0f; xeb; x2d].

(** The second byte of the version and brand opening sequences is a
    quantifier to [re] (3f is the question mark, 2a the star), so the
    patterns ask for the last three bytes only. *)
Definition VERSION_CORE : bytes := [x3e; x0e; xe1].
Definition BRAND_CORE : bytes := [xf5; x68; xc0].

(** [data] holds [span] between an opening sequence [skip ++ core] and the
    closing sequence: the span is not empty and holds no line feed, [core]
    does not occur earlier in the image, and the closing sequence does not
    occur later. *)
Definition bracketed (skip core closing data span : bytes) : Prop :=
  exists pre post,
    data = (pre ++ skip) ++ core ++ span ++ closing ++ post /\
    span <> [] /\
    Forall (fun b => b <> x0a) span /\
    (forall a b, (pre ++ skip) ++ core = a ++ core ++ b -> b = []) /\
    (forall a b, closing ++ post = a ++ closing ++ b -> a = []).



(** The result of a search is undecodable: the pattern matches and the
    bytes of its group are not UTF-8. *)
Definition undecodable (r : Re.regex) (data : bytes) : Prop :=
  exists m, Re.search Byte.to_N r data = Some m /\
            utf8_decode (Re.group 1 m) = None.

(** The places at which [m] occurs in [l]. *)
Fixpoint starts (m l : bytes) : bool :=
  match m, l with
  | [], _ => true
  | x :: m', y :: l' => Byte.eqb x y && starts m' l'
  | _ :: _, [] => false
  end.

Fixpoint occurrences (m l : bytes) : list nat :=
  (if starts m l then [O] else [])
  ++ match l with
     | [] => []
     | _ :: l' => List.map S (occurrences m l')
     end.

(** ** The file name convention *)

Definition is_decimal (c : N) : Prop := 48 <= c <= 57.

(** A non-empty sequence of decimal digits. *)
Definition digits (t : text) : Prop := t <> [] /\ Forall is_decimal t.

(** The convention read as the form of the whole base name: a name, a
    hyphen, then major.minor.patch. *)
Definition strict_convention (base : text) : Prop :=
  exists name major minor patch,
    base = name ++ [45] ++ major ++ [46] ++ minor ++ [46] ++ patch /\
    digits major /\ digits minor /\ digits patch.

(** What the pattern asks for: it is searched, not anchored, so the base
    name only has to contain a hyphen followed by major.minor.patch; any
    text, or none, may come before the hyphen and after the patch digits. *)
Definition contains_convention (base : text) : Prop :=
  exists name major minor patch rest,
    base = name ++ [45] ++ major ++ [46] ++ minor ++ [46] ++ patch ++ rest /\
    digits major /\ digits minor /\ digits patch.

(** The tests an entry passes before its record is created: a regular
    file, a recognized extension, a base name in which the pattern is
    found.  The result is the extension and the groups of the match. *)
Definition candidate (dir : directory) (fw_file : string)
    : option (text * list text) :=
  if isfile dir (codes fw_file) then
    let '(base, ext) := splitext (codes fw_file) in
    if bool_decide (ext ∈ [codes ".bin"; codes ".zip"]) then
      match Re.search id REGEX_FILENAME base with
      | Some m => Some (ext, m)
      | None => None
      end
    else None
  else None.

(** ** Scenarios *)

(** An implementation of the library interface, used to run the scanner on concrete directories: every zip file holds
    the members [bundle], every manifest parses to [manifest], and the
    digest of a file is the number of bytes fed to it, in decimal. *)
Definition demo_lib (bundle : gmap string bytes) (manifest : option pyobj)
    : PyLib := {|
  md5_state := Z;
  md5_new := 0%Z;
  md5_update := fun h chunk => (h + Z.of_nat (length chunk))%Z;
  md5_hexdigest := decimal;
  zip_magic := fun data =>
    match data with
    | b1 :: b2 :: _ => Byte.eqb b1 x50 && Byte.eqb b2 x4b   (* PK *)
    | _ => false
    end;
  zip_members := fun _ => Some bundle;
  json_loads := fun _ => manifest
|}.

(** The entry script of the scenarios: a docstring CLI helper between
    triple double quotes, then a line assigning 2.0.1 to __version__. *)
Definition main_py_text : text :=
  [34; 34; 34] ++ codes "CLI helper" ++ [34; 34; 34; 10]
  ++ codes "__version__ = " ++ [34] ++ codes "2.0.1" ++ [34; 10].

Definition ascii_bytes (t : text) : bytes :=
  List.map (fun n => default x00 (Byte.of_N n)) t.

Definition main_py : bytes := ascii_bytes main_py_text.

(** A file that starts like a zip archive. *)
Definition zip_data : bytes := [x50; x4b; x03; x04].

Definition tool_dir : directory :=
  [("tool-2.0.0.zip"%string, Node true 4 (Some zip_data))].

(** The manifest of the scenarios, as [json.loads] returns it. *)
Definition pkg_manifest : pyobj :=
  PDict [(codes "version", PStr (codes "3.0.0"));
         (codes "description", PStr (codes "pkg"))].

(** The bytes of the manifest: an object literal with the two members
    version 3.0.0 and description pkg; [x22] is the double quote. *)
Definition pkg_json : bytes :=
  [x7b; x22] ++ bytes_of "version" ++ [x22; x3a; x22] ++ bytes_of "3.0.0"
  ++ [x22; x2c; x22] ++ bytes_of "description" ++ [x22; x3a; x22]
  ++ bytes_of "pkg" ++ [x22; x7d].

(** A manifest without a version. *)
Definition pkg_manifest_no_version : pyobj :=
  PDict [(codes "description", PStr (codes "pkg"))].

Definition pkg_json_no_version : bytes :=
  [x7b; x22] ++ bytes_of "description" ++ [x22; x3a; x22]
  ++ bytes_of "pkg" ++ [x22; x7d].

(** A directory whose first candidate cannot be read. *)
Definition locked_dir : directory :=
  [("a-1.0.0.zip"%string, Node true 4 None);
   ("b-1.0.0.zip"%string, Node true 9 (Some (bytes_of "not a zip")))].

(** The image of the first scenario of the specification: the name
    SensorFW, the version 1.2.3-rc1 and the brand Acme between their
    markers. *)
Definition sensor_image : bytes :=
  bytes_of "ESP" ++ NAME_OPEN ++ bytes_of "SensorFW" ++ NAME_CLOSE ++ [x0a]
  ++ VERSION_OPEN ++ bytes_of "1.2.3-rc1" ++ VERSION_CLOSE
  ++ BRAND_OPEN ++ bytes_of "Acme" ++ BRAND_CLOSE ++ [x00].

Definition sensor_dir : directory :=
  [("sensor-1.2.3.bin"%string, Node true 56 (Some sensor_image));
   ("sensor-1.2.3.txt"%string,
    Node true 27 (Some (bytes_of "Temperature sensor firmware")))].





(** A file whose name goes on after the patch digits. *)
Definition beta_dir : directory :=
  [("sensor-1.2.3-beta.bin"%string, Node true 3 (Some (bytes_of "abc")))].

(** The text file beside an image [fw_file]: [<base name>.txt]. *)
Definition sidecar (fw_file : text) : text :=
  fst (splitext fw_file) ++ codes ".txt".

(** An image without markers, beside a description with the line ends of
    another system. *)
Definition notes_dir : directory :=
  [("fw-1.0.0.bin"%string, Node true 3 (Some (bytes_of "abc")));
   ("fw-1.0.0.txt"%string,
    Node true 10 (Some (bytes_of "one" ++ [x0d; x0a] ++ bytes_of "two" ++ [x0d])))].

(** The fields [scan_esp_firmware] assigns. *)
Definition esp_fields : list string :=
  ["type"; "name"; "version"; "brand"; "description"]%string.

(** A library interface in which every file passes [zipfile.is_zipfile]
    and the constructor of [ZipFile] raises, as for a file that ends like
    an archive and whose central directory is damaged. *)
Definition damaged_zip_lib : PyLib := {|
  md5_state := Z;
  md5_new := 0%Z;
  md5_update := fun h chunk => (h + Z.of_nat (length chunk))%Z;
  md5_hexdigest := decimal;
  zip_magic := fun _ => true;
  zip_members := fun _ => None;
  json_loads := fun _ => None
|}.

(** A manifest with a version and no description. *)
Definition pkg_manifest_no_description : pyobj :=
  PDict [(codes "version", PStr (codes "3.0.0"))].

Definition pkg_json_no_description : bytes :=
  [x7b; x22] ++ bytes_of "version" ++ [x22; x3a; x22]
  ++ bytes_of "3.0.0" ++ [x22; x7d].

(** A mapping from an earlier scan: the record of a file that is gone, and
    a record under the name of a file that is still there. *)
Definition earlier_db : gmap string record :=
  <["old-0.1.0.bin"%string := {["name"%string := PStr (codes "old")]}]>
    {["sensor-1.2.3.bin"%string := {["note"%string := PStr (codes "mine")]}]}.

(** An image that holds the last three bytes of the version and brand
    opening sequences only, not their first two. *)
Definition short_marker_image : bytes :=
  bytes_of "fw" ++ VERSION_CORE ++ bytes_of "0.9" ++ VERSION_CLOSE
  ++ BRAND_CORE ++ bytes_of "Acme" ++ BRAND_CLOSE.

Definition short_marker_dir : directory :=
  [("fw-1.0.0.bin"%string, Node true 27 (Some short_marker_image))].


(** * Properties *)

(** ** Patterns *)

(** All six patterns are accepted by [compile], and they compile to the
    definitions the scanner uses. *)
Lemma patterns_compile :
  Re.compile false REGEX_NAME_pattern = Some REGEX_NAME /\
  Re.compile false REGEX_VERSION_pattern = Some REGEX_VERSION /\
  Re.compile false REGEX_BRAND_pattern = Some REGEX_BRAND /\
  Re.compile true REGEX_PYTHON_VERSION_pattern = Some REGEX_PYTHON_VERSION /\
  Re.compile true REGEX_PYTHON_DESC_pattern = Some REGEX_PYTHON_DESC /\
  Re.compile false REGEX_FILENAME_pattern = Some REGEX_FILENAME.
Proof. repeat split; vm_compute; reflexivity. Qed.

(** ** Statements *)

Section Statements.

Context `{PyLib}.

Lemma zip_read_Some (bundle : gmap string bytes) name data :
  bundle !! name = Some data -> zip_read bundle name = Ok data.
Proof. intros Hb. unfold zip_read. now rewrite Hb. Qed.

Lemma zip_read_None (bundle : gmap string bytes) name :
  bundle !! name = None -> zip_read bundle name = Raise KeyError.
Proof. intros Hb. unfold zip_read. now rewrite Hb. Qed.

(** The script probe leaves the record as it found it: without the member
    [getinfo] raises KeyError, with it [re.search] is given the bytes
    [ZipFile.read] returned and raises TypeError; both are swallowed, and
    the [else] branch is skipped. *)
Lemma probe_main_py_skip (bundle : gmap string bytes) db :
  probe_main_py bundle db = (db, Ok tt).
Proof.
  unfold probe_main_py, try_except_pass_else, bind, lift, zip_read.
  destruct (bundle !! "main.py"%string); reflexivity.
Qed.

Lemma probe_package_json_absent (bundle : gmap string bytes) db :
  bundle !! "package.json"%string = None ->
  probe_package_json bundle db = (db, Ok tt).
Proof.
  intros Hb.
  unfold probe_package_json, try_except_pass_else, bind, lift, zip_read.
  now rewrite Hb.
Qed.

Lemma scan_bundle_firmware_open dir fw_file data bundle db :
  read_binary dir fw_file = Ok data ->
  zip_magic data = true ->
  zip_members data = Some bundle ->
  scan_bundle_firmware dir fw_file db = probe_package_json bundle db.
Proof.
  intros Hr Hm Hz.
  unfold scan_bundle_firmware, is_zipfile, ZipFile, bind, lift.
  rewrite Hr, Hm, Hz. cbn. now rewrite probe_main_py_skip.
Qed.

End Statements.

(** ** The bundle inspector *)

(** On text the two patterns of the script probe find what the probe is
    after; the bytes of the script are that text. *)
Lemma script_patterns_on_text :
  re_search_str REGEX_PYTHON_VERSION (SStr main_py_text)
    = Ok (Some [codes "2.0.1"]) /\
  re_search_str REGEX_PYTHON_DESC (SStr main_py_text)
    = Ok (Some [codes "CLI helper"]) /\
  utf8_decode main_py = Some main_py_text.
Proof. repeat split; vm_compute; reflexivity. Qed.

Section Bundle.

Context `{PyLib}.

(** C1 (the code departs from the claim).  A valid zip archive with a
    [main.py] member and no [package.json]: [scan_bundle_firmware] returns
    normally and leaves the record exactly as it was, whatever the script
    contains.  No version, no description and no type are set: [re.search]
    is called with a text pattern on the bytes [ZipFile.read] returned, which
    raises TypeError, and the probe's [except Exception: pass] swallows it,
    skipping the [else] branch that sets the type. *)
Theorem scan_bundle_firmware_script_only dir fw_file data
    (bundle : gmap string bytes) main db :
  read_binary dir fw_file = Ok data ->
  zip_magic data = true ->
  zip_members data = Some bundle ->
  bundle !! "main.py"%string = Some main ->
  bundle !! "package.json"%string = None ->
  scan_bundle_firmware dir fw_file db = (db, Ok tt).
Proof.
  intros Hr Hm Hz _ Hp.
  rewrite (scan_bundle_firmware_open _ _ _ _ _ Hr Hm Hz).
  now apply probe_package_json_absent.
Qed.

(** C2.  A valid zip archive with a [main.py] member and a [package.json]
    member that parses to an object with a description and a version: the
    record ends with the description and the version of the manifest and
    with the type javascript, whatever the record held before the manifest
    probe ran. *)
Theorem scan_bundle_firmware_manifest_wins dir fw_file data
    (bundle : gmap string bytes) main manifest package description version db :
  read_binary dir fw_file = Ok data ->
  zip_magic data = true ->
  zip_members data = Some bundle ->
  bundle !! "main.py"%string = Some main ->
  bundle !! "package.json"%string = Some manifest ->
  json_loads manifest = Some package ->
  getitem package "description" = Ok description ->
  getitem package "version" = Ok version ->
  scan_bundle_firmware dir fw_file db
  = (<["type"%string := PStr (codes "javascript")]>
       (<["version"%string := version]>
          (<["description"%string := description]> db)), Ok tt).
Proof.
  intros Hr Hm Hz _ Hp Hj Hd Hv.
  rewrite (scan_bundle_firmware_open _ _ _ _ _ Hr Hm Hz).
  unfold probe_package_json, try_except_pass_else, bind, lift, loads, setitem.
  rewrite (zip_read_Some _ _ _ Hp), Hj, Hd, Hv. reflexivity.
Qed.

(** C10.  A valid zip archive whose [package.json] parses to an object with
    a description and without a version: the description is assigned, then
    the subscript for the version raises KeyError, which the probe swallows.
    The record ends with the manifest's description and is otherwise
    untouched: its version and its type are what they were (absent, for the
    fresh record of a scan). *)
Theorem scan_bundle_firmware_manifest_without_version dir fw_file data
    (bundle : gmap string bytes) manifest fields description db :
  read_binary dir fw_file = Ok data ->
  zip_magic data = true ->
  zip_members data = Some bundle ->
  bundle !! "package.json"%string = Some manifest ->
  json_loads manifest = Some (PDict fields) ->
  dict_get fields (codes "description") = Some description ->
  dict_get fields (codes "version") = None ->
  let db' := (scan_bundle_firmware dir fw_file db).1 in
  scan_bundle_firmware dir fw_file db
    = (<["description"%string := description]> db, Ok tt) /\
  db' !! "description"%string = Some description /\
  db' !! "version"%string = db !! "version"%string /\
  db' !! "type"%string = db !! "type"%string.
Proof.
  intros Hr Hm Hz Hp Hj Hd Hv db'. subst db'.
  rewrite (scan_bundle_firmware_open _ _ _ _ _ Hr Hm Hz).
  unfold probe_package_json, try_except_pass_else, bind, lift, loads, setitem,
    getitem.
  rewrite (zip_read_Some _ _ _ Hp), Hj, Hd, Hv. cbn.
  split; [reflexivity|]. split; [apply lookup_insert_eq|].
  split; now rewrite lookup_insert_ne.
Qed.

End Bundle.

(** The first scenario of the bundle inspector, on the code: the archive
    [tool-2.0.0.zip] holds only the entry script. *)
Lemma scan_bundle_firmware_script_only_witness :
  let lib := demo_lib {["main.py"%string := main_py]} None in
  @scan_bundle_firmware lib tool_dir (codes "tool-2.0.0.zip")
    {["filename"%string := PStr (codes "tool-2.0.0.zip")]}
  = ({["filename"%string := PStr (codes "tool-2.0.0.zip")]}, Ok tt).
Proof.
  intros lib.
  apply (@scan_bundle_firmware_script_only lib tool_dir (codes "tool-2.0.0.zip")
           zip_data {["main.py"%string := main_py]} main_py);
    vm_compute; reflexivity.
Defined.

Lemma scan_bundle_firmware_manifest_wins_witness :
  let lib := demo_lib {["main.py"%string := main_py;
                        "package.json"%string := pkg_json]} (Some pkg_manifest) in
  @scan_bundle_firmware lib tool_dir (codes "tool-2.0.0.zip")
    {["filename"%string := PStr (codes "tool-2.0.0.zip")]}
  = (<["type"%string := PStr (codes "javascript")]>
       (<["version"%string := PStr (codes "3.0.0")]>
          (<["description"%string := PStr (codes "pkg")]>
             {["filename"%string := PStr (codes "tool-2.0.0.zip")]})), Ok tt).
Proof.
  intros lib.
  apply (@scan_bundle_firmware_manifest_wins lib tool_dir
           (codes "tool-2.0.0.zip") zip_data
           {["main.py"%string := main_py; "package.json"%string := pkg_json]}
           main_py pkg_json pkg_manifest);
    vm_compute; reflexivity.
Defined.

Lemma scan_bundle_firmware_manifest_without_version_witness :
  @scan_bundle_firmware
    (demo_lib {["package.json"%string := pkg_json_no_version]}
       (Some pkg_manifest_no_version))
    tool_dir (codes "tool-2.0.0.zip")
    {["filename"%string := PStr (codes "tool-2.0.0.zip")]}
  = (<["description"%string := PStr (codes "pkg")]>
       {["filename"%string := PStr (codes "tool-2.0.0.zip")]}, Ok tt).
Proof.
  apply (@scan_bundle_firmware_manifest_without_version
           (demo_lib {["package.json"%string := pkg_json_no_version]}
              (Some pkg_manifest_no_version))
           tool_dir (codes "tool-2.0.0.zip") zip_data
           {["package.json"%string := pkg_json_no_version]}
           pkg_json_no_version
           [(codes "description", PStr (codes "pkg"))]);
    vm_compute; reflexivity.
Defined.

(** ** The size formatter *)

Lemma scaled_succ x k : scaled (x / (1024 # 1)) k = scaled x (S k).
Proof. unfold scaled. now rewrite Nat.iter_succ_r. Qed.

Lemma float_of_int_small z :
  (Z.abs z < 2 ^ 53)%Z -> float_of_int z = Some (inject_Z z).
Proof.
  intros Hz. unfold float_of_int.
  destruct (Z.ltb_spec (Z.abs z) (2 ^ 53)); [reflexivity | lia].
Qed.

Lemma float_of_int_big z :
  (2 ^ 53 <= z < 2 ^ 1023)%Z ->
  exists v, float_of_int z = Some (inject_Z v) /\ (2 ^ 52 <= v)%Z.
Proof.
  intros [Hlo Hhi]. unfold float_of_int.
  assert (Hpos : (0 < z)%Z) by (pose proof (Z.pow_pos_nonneg 2 53); lia).
  rewrite (Z.abs_eq z) by lia.
  destruct (Z.ltb_spec z (2 ^ 53)) as [|_]; [lia|].
  rewrite (Z.sgn_pos z) by lia.
  pose proof (Z.log2_spec z Hpos) as [Hl1 Hl2].
  assert (Hl53 : (53 <= Z.log2 z)%Z) by (apply Z.log2_le_pow2; lia).
  assert (Hl1023 : (Z.log2 z < 1023)%Z) by (apply Z.log2_lt_pow2; lia).
  set (e := (Z.log2 z - 52)%Z) in *.
  assert (He : (1 <= e <= 970)%Z) by (subst e; lia).
  assert (Hpe : (0 < 2 ^ e)%Z) by (apply Z.pow_pos_nonneg; lia).
  assert (H52 : (2 ^ Z.log2 z = 2 ^ 52 * 2 ^ e)%Z).
  { rewrite <- Z.pow_add_r by lia. f_equal. subst e. lia. }
  assert (H53 : (2 ^ Z.succ (Z.log2 z) = 2 ^ 53 * 2 ^ e)%Z).
  { rewrite <- Z.pow_add_r by lia. f_equal. subst e. lia. }
  set (q := (z / 2 ^ e)%Z).
  assert (Hq1 : (2 ^ 52 <= q)%Z).
  { subst q. apply Z.div_le_lower_bound; lia. }
  assert (Hq2 : (q < 2 ^ 53)%Z).
  { subst q. apply Z.div_lt_upper_bound; lia. }
  set (q' := if (_ || _)%bool then (q + 1)%Z else q).
  assert (Hq' : (q <= q' <= q + 1)%Z).
  { subst q'. destruct (_ || _); lia. }
  assert (Hv : (q' * 2 ^ e <= 2 ^ 53 * 2 ^ e)%Z).
  { apply Z.mul_le_mono_nonneg_r; lia. }
  assert (Hlim : (2 ^ 53 * 2 ^ e < 2 ^ 1024)%Z).
  { rewrite <- Z.pow_add_r by lia. apply Z.pow_lt_mono_r; lia. }
  destruct (Z.ltb_spec (q' * 2 ^ e) (2 ^ 1024)) as [_|]; [|lia].
  exists (q' * 2 ^ e)%Z. split.
  - do 2 f_equal. lia.
  - assert (q' * 1 <= q' * 2 ^ e)%Z by (apply Z.mul_le_mono_nonneg_l; lia). lia.
Qed.

(** [float] succeeds on every size below 2^1023; it is exact below 1024 and
    keeps a size that is 1024 or more at 1024 or more. *)
Lemma float_of_int_size z :
  (0 <= z < 2 ^ 1023)%Z ->
  exists v, float_of_int z = Some (inject_Z v) /\
            ((z < 1024)%Z -> v = z) /\ ((1024 <= z)%Z -> (1024 <= v)%Z).
Proof.
  intros [Hlo Hhi].
  destruct (Z.lt_ge_cases z (2 ^ 53)) as [Hs|Hb].
  - exists z. split; [apply float_of_int_small; lia | tauto].
  - destruct (float_of_int_big z) as (v & Hv & Hge); [lia|].
    exists v. split; [exact Hv|].
    assert (1024 < 2 ^ 52)%Z by reflexivity.
    assert (1024 < 2 ^ 53)%Z by reflexivity. split; lia.
Qed.


Lemma sizeof_loop_cons unit units num suffix :
  sizeof_loop (unit :: units) num suffix
  = if abs_lt_1024 num then
      match format_1f num with
      | Ok v => Ok (v ++ codes unit ++ suffix)
      | Raise e => Raise e
      end
    else
      match div_1024 num with
      | Ok num' => sizeof_loop units num' suffix
      | Raise e => Raise e
      end.
Proof. reflexivity. Qed.

(** The loop on a float: it stops at the first unit at which the scaled
    value is below 1024, and at Y when there is none. *)
Lemma sizeof_loop_float units x suffix :
  exists k, (k <= length units)%nat /\
    sizeof_loop units (Float x) suffix
      = Ok (fmt_1f (scaled x k) ++ codes (nth k (units ++ ["Y"%string]) "")
            ++ suffix) /\
    (forall j, (j < k)%nat -> below_1024 (scaled x j) = false) /\
    ((k < length units)%nat -> below_1024 (scaled x k) = true).
Proof.
  revert x. induction units as [|unit units IH]; intros x.
  - exists O. cbn. repeat split; [lia | intros; lia | lia].
  - cbn [sizeof_loop abs_lt_1024 format_1f to_float div_1024].
    fold (below_1024 x).
    destruct (below_1024 x) eqn:Hb.
    + exists O. cbn. repeat split; [lia | intros; lia | auto].
    + destruct (IH (x / (1024 # 1))%Q) as (k & Hk & Hloop & Hbefore & Hat).
      rewrite scaled_succ in Hat.
      exists (S k). rewrite Hloop, scaled_succ. cbn [length nth app].
      repeat split; [lia | | intros; apply Hat; lia].
      intros [|j] Hj; [exact Hb|].
      rewrite <- scaled_succ. apply Hbefore. lia.
Qed.



(** ** What a match implies *)

Section Language.

Context {A : Type} (code : A -> N).

Lemma greedy_sound k cont prev s c c' :
  Re.greedy code k cont prev s c = Some c' ->
  exists w rest prev' c0,
    s = w ++ rest /\ Forall (fun x => Re.accepts code k x = true) w /\
    cont prev' rest c0 = Some c'.
Proof.
  revert prev c. induction s as [|x s IH]; intros prev c; cbn.
  - intros Hc. exists [], [], prev, c. auto.
  - destruct (Re.accepts code k x) eqn:Hx.
    + destruct (Re.greedy code k cont (Some x) s (Re.push x c)) eqn:Hg.
      * intros [= <-]. destruct (IH _ _ Hg) as (w & rest & p & cg & -> & Hw & Hc).
        exists (x :: w), rest, p, cg. auto.
      * intros Hc. exists [], (x :: s), prev, c. auto.
    + intros Hc. exists [], (x :: s), prev, c. auto.
Qed.

Lemma match_here_sound r prev s c c' :
  Re.match_here code r prev s c = Some c' ->
  exists w rest, s = w ++ rest /\ lang code r w.
Proof.
  revert prev s c. induction r as [|i r IH]; intros prev s c; cbn.
  - intros _. exists [], s. auto.
  - destruct i as [q k| m | |].
    + destruct q.
      * destruct s as [|x s]; [discriminate|].
        destruct (Re.accepts code k x) eqn:Hx; [|discriminate].
        intros Hm. destruct (IH _ _ _ Hm) as (w & rest & -> & Hw).
        exists (x :: w), rest. split; [reflexivity|].
        exists [x], w. cbn. auto.
      * assert (Hskip : Re.match_here code r prev s c = Some c' ->
                        exists w rest, s = w ++ rest /\ lang code (Re.Atom Re.Opt k :: r) w).
        { intros Hm. destruct (IH _ _ _ Hm) as (w & rest & -> & Hw).
          exists w, rest. split; [reflexivity|]. exists [], w. cbn. auto. }
        destruct s as [|x s]; [exact Hskip|].
        destruct (Re.accepts code k x) eqn:Hx; [|exact Hskip].
        destruct (Re.match_here code r (Some x) s (Re.push x c)) eqn:Hm;
          [|exact Hskip].
        intros [= <-]. destruct (IH _ _ _ Hm) as (w & rest & -> & Hw).
        exists (x :: w), rest. split; [reflexivity|].
        exists [x], w. cbn. auto.
      * intros Hg.
        destruct (greedy_sound _ _ _ _ _ _ Hg) as (w1 & s2 & p & cg & -> & Hw1 & Hm).
        destruct (IH _ _ _ Hm) as (w & rest & -> & Hw).
        exists (w1 ++ w), rest. split; [now rewrite app_assoc|].
        exists w1, w. cbn. auto.
      * destruct s as [|x s]; [discriminate|].
        destruct (Re.accepts code k x) eqn:Hx; [|discriminate].
        intros Hg.
        destruct (greedy_sound _ _ _ _ _ _ Hg) as (w1 & s2 & p & cg & -> & Hw1 & Hm).
        destruct (IH _ _ _ Hm) as (w & rest & -> & Hw).
        exists (x :: w1 ++ w), rest. split; [cbn; now rewrite app_assoc|].
        exists (x :: w1), w. cbn. repeat split; auto; lia.
    + destruct (Re.at_bol code m prev); [apply IH | discriminate].
    + apply IH.
    + apply IH.
Qed.

Lemma search_from_sound r prev s m :
  Re.search_from code r prev s = Some m ->
  exists pre w rest, s = pre ++ w ++ rest /\ lang code r w.
Proof.
  revert prev. induction s as [|x s IH]; intros prev; cbn.
  - destruct (Re.match_here code r prev [] Re.no_caps) eqn:Hm; [|discriminate].
    intros _. destruct (match_here_sound _ _ _ _ _ Hm) as (w & rest & Hs & Hw).
    exists [], w, rest. auto.
  - destruct (Re.match_here code r prev (x :: s) Re.no_caps) eqn:Hm.
    + intros _. destruct (match_here_sound _ _ _ _ _ Hm) as (w & rest & Hs & Hw).
      exists [], w, rest. auto.
    + intros Hs. destruct (IH _ Hs) as (pre & w & rest & -> & Hw).
      exists (x :: pre), w, rest. auto.
Qed.

End Language.

(** ** When a search finds a given span *)

Section Determinism.

Context {A : Type} (code : A -> N).
Hypothesis code_inj : forall x y, code x = code y -> x = y.


Lemma pushes_open (w l : list A) cl :
  pushes w (Re.Caps (Some l) cl) = Re.Caps (Some (rev w ++ l)) cl.
Proof.
  revert l. induction w as [|x w IH]; intros l; [reflexivity|].
  change (pushes w (Re.Caps (Some (x :: l)) cl)
          = Re.Caps (Some (rev (x :: w) ++ l)) cl).
  rewrite IH. cbn [rev]. now rewrite <- app_assoc.
Qed.

Lemma pushes_closed (w : list A) cl :
  pushes w (Re.Caps None cl) = Re.Caps (@None (list A)) cl.
Proof. induction w as [|x w IH]; cbn; [reflexivity | exact IH]. Qed.

Lemma accepts_lit x y :
  Re.accepts code (Re.CLit (code y)) x = true <-> x = y.
Proof.
  unfold Re.accepts, Re.cls_match. rewrite N.eqb_eq.
  split; [apply code_inj | now intros ->].
Qed.

(** A literal sequence matches where it stands... *)
Lemma match_lits m r prev s c :
  exists prev',
    Re.match_here code (lits code m ++ r) prev (m ++ s) c
    = Re.match_here code r prev' s (pushes m c).
Proof.
  revert prev c. induction m as [|x m IH]; intros prev c.
  - now exists prev.
  - assert (Hx : Re.accepts code (Re.CLit (code x)) x = true)
      by now apply accepts_lit.
    change (lits code (x :: m) ++ r)
      with (Re.Atom Re.Once (Re.CLit (code x)) :: (lits code m ++ r)).
    change ((x :: m) ++ s) with (x :: (m ++ s)).
    cbn [Re.match_here]. rewrite Hx. apply IH.
Qed.

(** ... and nowhere else. *)
Lemma match_lits_fail m r prev s c :
  (forall t, s <> m ++ t) ->
  Re.match_here code (lits code m ++ r) prev s c = None.
Proof.
  revert prev s c. induction m as [|x m IH]; intros prev s c Hs.
  - exfalso. now apply (Hs s).
  - change (lits code (x :: m) ++ r)
      with (Re.Atom Re.Once (Re.CLit (code x)) :: (lits code m ++ r)).
    cbn [Re.match_here]. destruct s as [|y s]; [reflexivity|].
    destruct (Re.accepts code (Re.CLit (code x)) y) eqn:Hy; [|reflexivity].
    apply accepts_lit in Hy as ->. apply IH.
    intros t ->. now apply (Hs t).
Qed.

(** Greedy repetition fails when the continuation fails after every run
    of accepted characters. *)
Lemma greedy_none k cont prev s c :
  (forall t u p c', s = t ++ u ->
     Forall (fun x => Re.accepts code k x = true) t -> cont p u c' = None) ->
  Re.greedy code k cont prev s c = None.
Proof.
  revert prev c. induction s as [|x s IH]; intros prev c Hfail; cbn.
  - now apply (Hfail [] []).
  - assert (Hhere : cont prev (x :: s) c = None) by now apply (Hfail []).
    destruct (Re.accepts code k x) eqn:Hx; [|exact Hhere].
    rewrite IH; [exact Hhere|].
    intros t u p c' -> Ht. apply (Hfail (x :: t) u); [reflexivity|].
    now constructor.
Qed.

(** Greedy repetition stops after [w] when the continuation succeeds there
    and fails after every longer run. *)
Lemma greedy_pick k cont prev w s c res :
  Forall (fun x => Re.accepts code k x = true) w ->
  (forall p, cont p s (pushes w c) = Some res) ->
  (forall t u p c', s = t ++ u -> t <> [] ->
     Forall (fun x => Re.accepts code k x = true) t -> cont p u c' = None) ->
  Re.greedy code k cont prev (w ++ s) c = Some res.
Proof.
  intros Hw Hok Hfail. revert prev c Hok.
  induction Hw as [|x w Hx Hw IH]; intros prev c Hok.
  - cbn in *. destruct s as [|y s]; cbn; [apply Hok|].
    destruct (Re.accepts code k y) eqn:Hy; [|apply Hok].
    rewrite greedy_none; [apply Hok|].
    intros t u p c' -> Ht. apply (Hfail (y :: t) u); [reflexivity|discriminate|].
    now constructor.
  - cbn. rewrite Hx. rewrite IH; [reflexivity|exact Hok].
Qed.


Lemma search_from_here r prev s c :
  Re.match_here code r prev s Re.no_caps = Some c ->
  Re.search_from code r prev s = Some (Re.closed c).
Proof. intros Hm. destruct s; cbn; now rewrite Hm. Qed.

(** The tail matches a span that is not empty, holds no line feed, and is
    followed by the last occurrence of the closing sequence. *)
Lemma match_span_then closing span post prev cl :
  span <> [] ->
  Forall (fun x => code x <> 10) span ->
  (forall a b, closing ++ post = a ++ closing ++ b -> a = []) ->
  Re.match_here code (span_then code closing) prev (span ++ closing ++ post)
    (Re.Caps None cl)
  = Some (Re.Caps None (cl ++ [span])).
Proof.
  intros Hne Hlf Hlast.
  destruct span as [|x span]; [congruence|].
  apply Forall_cons in Hlf as [Hx Hlf].
  assert (Hdot : forall y, code y <> 10 -> Re.accepts code Re.CDot y = true).
  { intros y Hy. unfold Re.accepts, Re.cls_match.
    now apply negb_true_iff, N.eqb_neq. }
  unfold span_then. cbn [app Re.match_here]. rewrite (Hdot x Hx).
  unfold Re.open_group, Re.push. cbn [Re.cur Re.closed].
  apply greedy_pick.
  - eapply Forall_impl; [exact Hlf | exact Hdot].
  - intros p. cbn [Re.match_here]. rewrite pushes_open.
    unfold Re.close_group. cbn [Re.cur Re.closed].
    destruct (match_lits closing [] p post
                (Re.Caps None (cl ++ [rev (rev span ++ [x])]))) as [p' Hp].
    rewrite app_nil_r in Hp. rewrite Hp. cbn [Re.match_here].
    rewrite pushes_closed, rev_app_distr, rev_involutive. reflexivity.
  - intros t u p c' Hsplit Ht _. cbn [Re.match_here].
    rewrite <- (app_nil_r (lits code closing)). apply match_lits_fail.
    intros v ->. apply Ht. apply (Hlast t v). exact Hsplit.
Qed.

(** An occurrence of [m] that starts inside [b ++ m] lies inside it. *)
Lemma occurrence_inside (m b rest t : list A) :
  b ++ m ++ rest = m ++ t ->
  exists b', b ++ m = m ++ b' /\ length b' = length b.
Proof.
  intros Heq.
  assert (Htake : take (length m) (b ++ m) = m).
  { rewrite <- (take_app_le (b ++ m) rest) by (rewrite length_app; lia).
    rewrite <- app_assoc, Heq. now rewrite take_app_length. }
  exists (drop (length m) (b ++ m)). split.
  - rewrite <- Htake at 2. now rewrite take_drop.
  - rewrite length_drop, length_app. lia.
Qed.

(** The opening [core] is not found before its first occurrence. *)
Lemma core_not_before (core full a b rest : list A) r p c :
  (forall a' b', full ++ core = a' ++ core ++ b' -> b' = []) ->
  full = a ++ b -> b <> [] ->
  Re.match_here code (lits code core ++ r) p (b ++ core ++ rest) c = None.
Proof.
  intros Hfirst -> Hb. apply match_lits_fail. intros t Heq.
  destruct (occurrence_inside _ _ _ _ Heq) as (b' & Hb' & Hlen).
  assert (b' = []).
  { apply (Hfirst a b'). now rewrite <- app_assoc, Hb', app_assoc. }
  subst b'. destruct b; [congruence | discriminate].
Qed.


Lemma match_prefix_item_skip q k r prev x s c :
  q = Re.Opt \/ q = Re.Star ->
  Re.accepts code k x = false ->
  Re.match_here code (Re.Atom q k :: r) prev (x :: s) c
  = Re.match_here code r prev (x :: s) c.
Proof. intros [->| ->] Hx; cbn; now rewrite Hx. Qed.



End Determinism.

(** ** The marker pairs of a native image *)

Lemma to_N_inj x y : Byte.to_N x = Byte.to_N y -> x = y.
Proof.
  intros Heq. pose proof (Byte.of_to_N x) as Hx.
  rewrite Heq, Byte.of_to_N in Hx. congruence.
Qed.

Lemma no_line_feed span :
  Forall (fun b => b <> x0a) span ->
  Forall (fun b => Byte.to_N b <> 10) span.
Proof.
  intros Hs. eapply Forall_impl; [exact Hs|].
  intros b Hb Heq. apply Hb. now apply to_N_inj.
Qed.





Lemma REGEX_VERSION_shape :
  REGEX_VERSION
  = Re.Atom Re.Opt (Re.CLit (Byte.to_N x6a))
    :: lits Byte.to_N VERSION_CORE ++ span_then Byte.to_N VERSION_CLOSE.
Proof. reflexivity. Qed.

Lemma REGEX_BRAND_shape :
  REGEX_BRAND
  = Re.Atom Re.Star (Re.CLit (Byte.to_N xfb))
    :: lits Byte.to_N BRAND_CORE ++ span_then Byte.to_N BRAND_CLOSE.
Proof. reflexivity. Qed.




(** ** The file name convention *)

Lemma accepts_lit_id c x : Re.accepts id (Re.CLit c) x = true -> x = c.
Proof. unfold Re.accepts, Re.cls_match, id. apply N.eqb_eq. Qed.

Lemma accepts_digit_id x : Re.accepts id Re.CDigit x = true -> is_decimal x.
Proof.
  unfold Re.accepts, Re.cls_match, id, is_decimal.
  intros Hx. apply andb_true_iff in Hx as [H1 H2].
  apply N.leb_le in H1, H2. lia.
Qed.

Lemma plus_digits w :
  Forall (fun x => Re.accepts id Re.CDigit x = true) w ->
  (1 <= length w)%nat -> digits w.
Proof.
  intros Hw Hl. split.
  - intros ->. cbn in Hl. lia.
  - eapply Forall_impl; [exact Hw|]. intros x. apply accepts_digit_id.
Qed.

Lemma once_lit w c :
  Forall (fun x => Re.accepts id (Re.CLit c) x = true) w ->
  length w = 1%nat -> w = [c].
Proof.
  intros Hw Hl. destruct w as [|x [|y w]]; try discriminate.
  apply Forall_cons in Hw as [Hx _]. now rewrite (accepts_lit_id _ _ Hx).
Qed.

(** A base name the pattern is found in contains the convention. *)
Lemma filename_search_sound base m :
  Re.search id REGEX_FILENAME base = Some m -> contains_convention base.
Proof.
  intros Hs. apply search_from_sound in Hs as (pre & w & rest & -> & Hw).
  cbn in Hw.
  destruct Hw as (n1 & w1 & -> & _ & _ & Hw).
  destruct Hw as (h & w2 & -> & Hh & Hhl & Hw).
  destruct Hw as (major & w3 & -> & Hmaj & Hmajl & Hw).
  destruct Hw as (d1 & w4 & -> & Hd1 & Hd1l & Hw).
  destruct Hw as (minor & w5 & -> & Hmin & Hminl & Hw).
  destruct Hw as (d2 & w6 & -> & Hd2 & Hd2l & Hw).
  destruct Hw as (patch & w7 & -> & Hpat & Hpatl & ->).
  rewrite (once_lit _ _ Hh Hhl), (once_lit _ _ Hd1 Hd1l), (once_lit _ _ Hd2 Hd2l).
  exists (pre ++ n1), major, minor, patch, rest.
  split; [|auto using plus_digits].
  rewrite app_nil_r, <- !app_assoc. reflexivity.
Qed.

(** ** The scanner *)

Lemma sizeof_fmt_total (n : Z) :
  (0 <= n < 2 ^ 1023)%Z -> exists s, sizeof_fmt (Int n) = Ok s.
Proof.
  intros Hn.
  destruct (float_of_int_size n Hn) as (v & Hv & _ & _).
  unfold sizeof_fmt, UNITS. rewrite sizeof_loop_cons.
  unfold format_1f, div_1024, to_float. rewrite Hv.
  destruct (abs_lt_1024 (Int n)); [eauto|].
  destruct (sizeof_loop_float ["K"; "M"; "G"; "T"; "P"; "E"; "Z"]%string
              (inject_Z v / (1024 # 1))%Q (codes "B"))
    as (k & _ & Hloop & _).
  rewrite Hloop. eauto.
Qed.

(** An integer of 2^1024 or more cannot be scaled: the first division
    raises OverflowError. *)
Lemma sizeof_fmt_overflow :
  sizeof_fmt (Int (2 ^ 1024)) = Raise OverflowError.
Proof. vm_compute. reflexivity. Qed.

Section ScannerFacts.

Context `{PyLib}.

Lemma read_binary_content dir name nd data :
  dir_lookup dir name = Some nd -> content nd = Some data ->
  read_binary dir name = Ok data.
Proof.
  intros Hl Hc. unfold read_binary. rewrite Hl.
  destruct nd as [f s c]. cbn in Hc. now subst c.
Qed.

Lemma read_binary_unreadable dir name nd :
  dir_lookup dir name = Some nd -> content nd = None ->
  read_binary dir name = Raise OSError.
Proof.
  intros Hl Hc. unfold read_binary. rewrite Hl.
  destruct nd as [f s c]. cbn in Hc. now subst c.
Qed.

Lemma fw_types_zip : fw_types (codes ".zip") = Some scan_bundle_firmware.
Proof. reflexivity. Qed.

Lemma fw_types_bin : fw_types (codes ".bin") = Some scan_esp_firmware.
Proof. reflexivity. Qed.


Lemma scan_loop_app dir xs ys (db : gmap string record) :
  scan_loop dir (xs ++ ys) db
  = match scan_loop dir xs db with
    | (db1, Ok _) => scan_loop dir ys db1
    | (db1, Raise e) => (db1, Raise e)
    end.
Proof.
  revert db. induction xs as [|x xs IH]; intros db; cbn; [reflexivity|].
  destruct (scan_entry dir x db) as [db1 [[]|e]]; [apply IH | reflexivity].
Qed.

(** The turn of a candidate file that cannot be opened for reading ends
    with OSError: in the extractor for a native image, in [file_md5] for an
    archive ([zipfile.is_zipfile] swallows the error and answers False). *)
Lemma scan_entry_unreadable dir fw_file nd base ext m db :
  dir_lookup dir (codes fw_file) = Some nd ->
  is_file nd = true ->
  content nd = None ->
  (0 <= st_size nd < 2 ^ 63)%Z ->
  splitext (codes fw_file) = (base, ext) ->
  ext = codes ".bin" \/ ext = codes ".zip" ->
  Re.search id REGEX_FILENAME base = Some m ->
  exists info,
    scan_entry dir fw_file db = (<[fw_file := info]> db, Raise OSError) /\
    info !! "checksum"%string = None.
Proof.
  intros Hl Hf Hc Hsize Hext Hor Hm.
  destruct (sizeof_fmt_total (st_size nd)) as [hs Hhs].
  { split; [lia|]. eapply Z.lt_trans; [apply Hsize | reflexivity]. }
  unfold scan_entry, isfile. rewrite Hl, Hf, Hext. cbn [negb].
  rewrite bool_decide_eq_true_2
    by (apply list_elem_of_In; destruct Hor; subst ext; [left|right; left]; reflexivity).
  cbn [negb]. rewrite Hm. unfold fill_record.
  destruct Hor; subst ext.
  - rewrite fw_types_bin. unfold scan_esp_firmware.
    unfold bind at 1 2 3. unfold setitem at 1 2. unfold lift at 1.
    rewrite (read_binary_unreadable _ _ _ Hl Hc).
    eexists. split; [reflexivity|]. reflexivity.
  - rewrite fw_types_zip.
    unfold scan_bundle_firmware, is_zipfile, file_md5.
    rewrite (read_binary_unreadable _ _ _ Hl Hc). cbn [negb].
    unfold bind, setitem, ret, contains, when, lift. rewrite Hl, Hhs.
    eexists. split; [reflexivity|]. reflexivity.
Qed.

(** C5 (amended).  A candidate file (regular, extension .bin or .zip,
    conventional name) that cannot be opened for reading: the I/O error is
    not caught anywhere, it leaves [scan_firmwares] and ends the whole scan.
    The entries listed after the file are not looked at; the mapping holds
    what the entries before it produced, and the record of the file itself,
    without a checksum. *)
Theorem scan_firmwares_unreadable_file dir before fw_file after nd base ext m
    (db db1 : gmap string record) :
  listdir dir = before ++ fw_file :: after ->
  scan_loop dir before db = (db1, Ok tt) ->
  dir_lookup dir (codes fw_file) = Some nd ->
  is_file nd = true ->
  content nd = None ->
  (0 <= st_size nd < 2 ^ 63)%Z ->
  splitext (codes fw_file) = (base, ext) ->
  ext = codes ".bin" \/ ext = codes ".zip" ->
  Re.search id REGEX_FILENAME base = Some m ->
  exists info,
    scan_firmwares dir db = (<[fw_file := info]> db1, Raise OSError) /\
    info !! "checksum"%string = None.
Proof.
  intros Hls Hbefore Hl Hf Hc Hsize Hext Hor Hm.
  destruct (scan_entry_unreadable dir fw_file nd base ext m db1)
    as (info & Hentry & Hsum); try assumption.
  exists info. split; [|exact Hsum].
  unfold scan_firmwares. rewrite Hls, scan_loop_app, Hbefore.
  cbn [scan_loop]. now rewrite Hentry.
Qed.

(** ** The binary marker extractor *)

Lemma set_decoded_raises key m db :
  utf8_decode (Re.group 1 m) = None ->
  set_decoded key (Some m) db = (db, Raise UnicodeDecodeError).
Proof.
  intros Hd. unfold set_decoded, bind, lift, decode. now rewrite Hd.
Qed.

(** [set_decoded] touches no key but its own, and its own only when it
    ends normally. *)
Lemma set_decoded_frame key result db db' out k :
  set_decoded key result db = (db', out) ->
  k <> key \/ out <> Ok tt -> db' !! k = db !! k.
Proof.
  unfold set_decoded, bind, lift, decode, setitem, ret.
  destruct result as [m|]; [|intros [= <- <-]; reflexivity].
  destruct (utf8_decode (Re.group 1 m)); intros [= <- <-] Hor.
  - destruct Hor as [Hk|Ho]; [now rewrite lookup_insert_ne | congruence].
  - reflexivity.
Qed.

Lemma set_decoded_cases key result db :
  (exists db', set_decoded key result db = (db', Ok tt)) \/
  (set_decoded key result db = (db, Raise UnicodeDecodeError) /\
   exists m, result = Some m /\ utf8_decode (Re.group 1 m) = None).
Proof.
  unfold set_decoded, bind, lift, decode, setitem, ret.
  destruct result as [m|]; [|left; eauto].
  destruct (utf8_decode (Re.group 1 m)) eqn:Hd; [left; eauto|].
  right. split; [reflexivity|]. eauto.
Qed.

Lemma bind_eq {A B} (m : stmt A) (f : A -> stmt B) db :
  bind m f db
  = match m db with
    | (db', Ok a) => f a db'
    | (db', Raise e) => (db', Raise e)
    end.
Proof. reflexivity. Qed.

(** [scan_esp_firmware] once the image is read. *)
Lemma scan_esp_firmware_read dir fw_file data db :
  read_binary dir fw_file = Ok data ->
  scan_esp_firmware dir fw_file db
  = bind (set_decoded "name" (Re.search Byte.to_N REGEX_NAME data))
      (fun _ => bind (set_decoded "version" (Re.search Byte.to_N REGEX_VERSION data))
      (fun _ => bind (set_decoded "brand" (Re.search Byte.to_N REGEX_BRAND data))
      (fun _ => read_description dir fw_file)))
      (<["type"%string := PStr (codes "esp8266")]> db).
Proof.
  intros Hr. unfold scan_esp_firmware.
  rewrite bind_eq. unfold setitem at 1.
  rewrite bind_eq. unfold lift at 1. rewrite Hr.
  reflexivity.
Qed.


Lemma set_decoded_field key o r db :
  match o with
  | Some t => exists span, r = Some [span] /\ utf8_decode span = Some t
  | None => r = None
  end ->
  set_decoded key r db
  = (match o with Some t => <[key := PStr t]> db | None => db end, Ok tt).
Proof.
  destruct o as [t|].
  - intros (span & -> & Hd).
    unfold set_decoded, bind, lift, decode, setitem. cbn. now rewrite Hd.
  - intros ->. reflexivity.
Qed.

(** Reading the description touches no other field. *)
Lemma read_description_frame dir fw_file db k :
  k <> "description"%string ->
  (read_description dir fw_file db).1 !! k = db !! k.
Proof.
  intros Hk. unfold read_description, when.
  destruct (isfile dir _); [|reflexivity].
  rewrite bind_eq. unfold lift at 1.
  destruct (read_text dir _); [|reflexivity].
  unfold setitem. cbn. now rewrite lookup_insert_ne.
Qed.


End ScannerFacts.

(** C5 (as stated) fails: the unreadable [a-1.0.0.zip] ends the scan with
    OSError, and [b-1.0.0.zip], listed after it, gets no record, whereas
    scanned alone it gets one. *)
Lemma scan_firmwares_unreadable_file_counterexample :
  let lib := demo_lib ∅ None in
  (@scan_firmwares lib locked_dir ∅).2 = Raise OSError /\
  (@scan_firmwares lib locked_dir ∅).1 !! "b-1.0.0.zip"%string = None /\
  (@scan_firmwares lib (tail locked_dir) ∅).2 = Ok tt /\
  is_Some ((@scan_firmwares lib (tail locked_dir) ∅).1 !! "b-1.0.0.zip"%string).
Proof. vm_compute. repeat split. eexists. reflexivity. Qed.

Lemma scan_firmwares_unreadable_file_witness :
  exists info,
    @scan_firmwares (demo_lib ∅ None) locked_dir ∅
    = (<["a-1.0.0.zip"%string := info]> ∅, Raise OSError) /\
    info !! "checksum"%string = None.
Proof.
  apply (@scan_firmwares_unreadable_file (demo_lib ∅ None) locked_dir
           [] "a-1.0.0.zip"%string ["b-1.0.0.zip"%string]
           (Node true 4 None) (codes "a-1.0.0") (codes ".zip")
           [codes "a"; codes "1.0.0"] ∅ ∅);
    try (vm_compute; reflexivity).
  - split; [cbn; lia | reflexivity].
  - right. reflexivity.
Defined.


(** ** Which entries get a record *)

Lemma splitext_app p base ext : splitext p = (base, ext) -> p = base ++ ext.
Proof.
  unfold splitext. destruct (rfind_dot p) as [i|].
  - destruct (existsb _ _); intros [= <- <-];
      [now rewrite take_drop | now rewrite app_nil_r].
  - intros [= <- <-]. now rewrite app_nil_r.
Qed.

Lemma candidate_spec dir fw_file ext m :
  candidate dir fw_file = Some (ext, m) ->
  isfile dir (codes fw_file) = true /\
  exists base, splitext (codes fw_file) = (base, ext) /\
    (ext = codes ".bin" \/ ext = codes ".zip") /\
    Re.search id REGEX_FILENAME base = Some m.
Proof.
  unfold candidate. destruct (isfile dir (codes fw_file)); [|discriminate].
  destruct (splitext (codes fw_file)) as [base e].
  case_bool_decide as He; [|discriminate].
  destruct (Re.search id REGEX_FILENAME base) as [m'|] eqn:Hs; [|discriminate].
  intros [= <- <-]. split; [reflexivity|]. exists base.
  split; [reflexivity|]. split; [|exact Hs].
  apply elem_of_cons in He as [He|He]; [now left|].
  apply elem_of_cons in He as [He|He]; [now right|].
  now apply elem_of_nil in He.
Qed.

Section Records.

Context `{PyLib}.

Lemma scan_entry_candidate dir fw_file (db : gmap string record) :
  scan_entry dir fw_file db
  = match candidate dir fw_file with
    | Some (ext, m) =>
        let '(info, out) := fill_record dir fw_file ext m ∅ in
        (<[fw_file := info]> db, out)
    | None => (db, Ok tt)
    end.
Proof.
  unfold scan_entry, candidate.
  destruct (isfile dir (codes fw_file)); [|reflexivity]. cbn [negb].
  destruct (splitext (codes fw_file)) as [base ext].
  case_bool_decide; [|reflexivity]. cbn [negb].
  destruct (Re.search id REGEX_FILENAME base); reflexivity.
Qed.

(** Every record of the mapping was there before the scan or was produced
    by the turn of a candidate entry; when the scan ends normally, so did
    that turn. *)
Lemma scan_loop_records dir names (db db' : gmap string record) out :
  scan_loop dir names db = (db', out) ->
  forall k info, db' !! k = Some info ->
    db !! k = Some info \/
    (k ∈ names /\ exists ext m o,
       candidate dir k = Some (ext, m) /\
       fill_record dir k ext m ∅ = (info, o) /\
       (out = Ok tt -> o = Ok tt)).
Proof.
  revert db. induction names as [|x names IH]; intros db; cbn [scan_loop].
  - intros [= <- <-] k info Hk. now left.
  - rewrite scan_entry_candidate.
    destruct (candidate dir x) as [[ext m]|] eqn:Hc.
    + destruct (fill_record dir x ext m ∅) as [info_x o_x] eqn:Hfill.
      destruct o_x as [[]|e].
      * intros Hloop k info Hk.
        destruct (IH _ Hloop k info Hk) as [Hdb|(Hin & Hrest)].
        -- destruct (decide (k = x)) as [->|Hne].
           ++ rewrite lookup_insert_eq in Hdb. injection Hdb as <-.
              right. split; [apply elem_of_cons; now left|].
              exists ext, m, (Ok tt). auto.
           ++ rewrite lookup_insert_ne in Hdb by congruence. now left.
        -- right. split; [apply elem_of_cons; now right | exact Hrest].
      * intros [= <- <-] k info Hk.
        destruct (decide (k = x)) as [->|Hne].
        -- rewrite lookup_insert_eq in Hk. injection Hk as <-.
           right. split; [apply elem_of_cons; now left|].
           exists ext, m, (Raise e). repeat split; auto; discriminate.
        -- rewrite lookup_insert_ne in Hk by congruence. now left.
    + intros Hloop k info Hk.
      destruct (IH _ Hloop k info Hk) as [Hdb|(Hin & Hrest)]; [now left|].
      right. split; [apply elem_of_cons; now right | exact Hrest].
Qed.

(** [if "name" not in firmware_info: firmware_info["name"] = v] *)
Lemma when_set_name (r : record) v :
  exists r1,
    when (negb (bool_decide (is_Some (r !! "name"%string))))
      (setitem "name" v) r = (r1, Ok tt) /\
    r1 !! "name"%string = Some (default v (r !! "name"%string)) /\
    forall k, k <> "name"%string -> r1 !! k = r !! k.
Proof.
  case_bool_decide as Hn; cbn [negb when].
  - exists r. destruct Hn as [x Hx]. rewrite Hx. auto.
  - exists (<["name"%string := v]> r). split; [reflexivity|]. split.
    + rewrite lookup_insert_eq.
      destruct (r !! "name"%string) eqn:Hv; [|reflexivity].
      exfalso. apply Hn. eauto.
    + intros k Hk. now rewrite lookup_insert_ne.
Qed.

(** The record of a turn that ends normally: what the extractor left, then
    the name when the extractor set none, the version of the file name, the
    size and the checksum. *)
Lemma fill_record_ok dir fw_file ext m info :
  fill_record dir fw_file ext m ∅ = (info, Ok tt) ->
  exists scan r,
    fw_types ext = Some scan /\
    scan dir (codes fw_file) {["filename"%string := PStr (codes fw_file)]}
      = (r, Ok tt) /\
    info !! "filename_version"%string = Some (PStr (Re.group 2 m)) /\
    info !! "name"%string = Some (default (PStr (Re.group 1 m)) (r !! "name"%string)) /\
    info !! "version"%string = r !! "version"%string.
Proof.
  unfold fill_record. rewrite bind_eq. unfold setitem at 1.
  rewrite insert_empty. rewrite bind_eq.
  destruct (fw_types ext) as [scan|]; [|discriminate].
  destruct (scan dir (codes fw_file) _) as [r [[]|e]] eqn:Hscan; [|discriminate].
  rewrite bind_eq. unfold contains at 1. rewrite bind_eq.
  intros Hrest. exists scan, r. split; [reflexivity|]. split; [exact Hscan|].
  destruct (when_set_name r (PStr (Re.group 1 m))) as (r1 & Hw & Hname & Hother).
  rewrite Hw in Hrest. revert Hrest.
  rewrite bind_eq. unfold setitem at 1.
  rewrite bind_eq. unfold lift at 1.
  destruct (dir_lookup dir (codes fw_file)) as [nd|]; [|discriminate].
  rewrite bind_eq. unfold lift at 1.
  destruct (sizeof_fmt (Int (st_size nd))) as [hs|]; [|discriminate].
  rewrite bind_eq. unfold setitem at 1.
  rewrite bind_eq. unfold lift at 1.
  destruct (file_md5 dir (codes fw_file)) as [sum|]; [|discriminate].
  unfold setitem. intros [= <-].
  assert (Hversion : r1 !! "version"%string = r !! "version"%string)
    by (apply Hother; discriminate).
  repeat split.
  - rewrite !lookup_insert_ne by discriminate. apply lookup_insert_eq.
  - rewrite !lookup_insert_ne by discriminate. exact Hname.
  - rewrite !lookup_insert_ne by discriminate. exact Hversion.
Qed.

(** C8.  In the mapping of a scan that ends normally, every record has the
    version captured from the file name as its filename_version, whatever
    the extractor found, the extractor's name when the extractor set one and
    the base name captured from the file name otherwise; the version the
    extractor found, if any, is in the version field only. *)
Theorem scan_firmwares_filename_fields dir (db' : gmap string record)
    fw_file info :
  scan_firmwares dir ∅ = (db', Ok tt) ->
  db' !! fw_file = Some info ->
  exists base ext m scan r,
    splitext (codes fw_file) = (base, ext) /\
    Re.search id REGEX_FILENAME base = Some m /\
    fw_types ext = Some scan /\
    scan dir (codes fw_file) {["filename"%string := PStr (codes fw_file)]}
      = (r, Ok tt) /\
    info !! "filename_version"%string = Some (PStr (Re.group 2 m)) /\
    info !! "name"%string
      = Some (default (PStr (Re.group 1 m)) (r !! "name"%string)) /\
    info !! "version"%string = r !! "version"%string.
Proof.
  intros Hscan Hk.
  destruct (scan_loop_records _ _ _ _ _ Hscan _ _ Hk)
    as [Hempty|(_ & ext & m & o & Hc & Hfill & Hok)].
  { now rewrite lookup_empty in Hempty. }
  rewrite (Hok eq_refl) in Hfill.
  apply candidate_spec in Hc as (_ & base & Hsplit & _ & Hs).
  destruct (fill_record_ok _ _ _ _ _ Hfill) as (scan & r & Ht & Hr & Hfields).
  exists base, ext, m, scan, r. auto.
Qed.

(** C6 (amended).  A record of the mapping that was not there before the
    scan belongs to an entry of the directory that is a regular file, whose
    extension is .bin or .zip, and whose base name contains a hyphen
    followed by major.minor.patch in decimal digits: the pattern is
    searched, not anchored, so any text, or none, may come before the hyphen
    and after the patch digits.  No other entry gets a record, not even a
    partial one, also when the scan ends with an exception. *)
Theorem scan_firmwares_records_only_candidates dir (db db' : gmap string record)
    out fw_file :
  scan_firmwares dir db = (db', out) ->
  is_Some (db' !! fw_file) ->
  is_Some (db !! fw_file) \/
  (fw_file ∈ listdir dir /\
   isfile dir (codes fw_file) = true /\
   exists base ext,
     codes fw_file = base ++ ext /\
     splitext (codes fw_file) = (base, ext) /\
     (ext = codes ".bin" \/ ext = codes ".zip") /\
     contains_convention base).
Proof.
  intros Hscan [info Hk].
  destruct (scan_loop_records _ _ _ _ _ Hscan _ _ Hk)
    as [Hdb|(Hin & ext & m & o & Hc & _)].
  { left. eauto. }
  right. split; [exact Hin|].
  apply candidate_spec in Hc as (Hfile & base & Hsplit & Hext & Hs).
  split; [exact Hfile|]. exists base, ext.
  split; [now apply splitext_app|]. split; [exact Hsplit|].
  split; [exact Hext|]. now apply (filename_search_sound base m).
Qed.

End Records.

(** ** Scenarios *)

Lemma starts_spec (m b : bytes) : starts m (m ++ b) = true.
Proof.
  induction m as [|x m IH]; cbn; [reflexivity|].
  now rewrite Byte.byte_dec_lb, IH.
Qed.

Lemma occurrences_spec (m a b : bytes) :
  In (length a) (occurrences m (a ++ m ++ b)).
Proof.
  induction a as [|x a IH].
  - cbn [app length]. unfold occurrences.
    destruct (m ++ b) eqn:Hl.
    + destruct m; [|discriminate]. now left.
    + fold occurrences. rewrite <- Hl, starts_spec. now left.
  - cbn [app length occurrences]. apply in_or_app. right.
    now apply in_map.
Qed.

Lemma only_at_end (m l : bytes) :
  occurrences m l = [(length l - length m)%nat] ->
  forall a b, l = a ++ m ++ b -> b = [].
Proof.
  intros Hocc a b ->. pose proof (occurrences_spec m a b) as Hin.
  rewrite Hocc in Hin. destruct Hin as [Hin|[]].
  rewrite !length_app in Hin. destruct b; [reflexivity|]. cbn in Hin. lia.
Qed.

Lemma only_at_start (m l : bytes) :
  occurrences m l = [O] -> forall a b, l = a ++ m ++ b -> a = [].
Proof.
  intros Hocc a b ->. pose proof (occurrences_spec m a b) as Hin.
  rewrite Hocc in Hin. destruct Hin as [Hin|[]].
  destruct a; [reflexivity | discriminate].
Qed.






Lemma strict_convention_last base :
  strict_convention base -> exists c, last base = Some c /\ is_decimal c.
Proof.
  intros (name & major & minor & patch & -> & _ & _ & Hne & Hp).
  destruct (exists_last Hne) as (p0 & c & ->).
  exists c. split.
  - rewrite !app_assoc. apply last_snoc.
  - apply Forall_app in Hp as [_ Hp]. now apply Forall_cons in Hp as [Hc _].
Qed.

(** C6 (as stated) fails: [sensor-1.2.3-beta.bin] gets a record, and its
    base name sensor-1.2.3-beta is not a name, a hyphen and
    major.minor.patch: it does not end in a digit. *)
Lemma scan_firmwares_records_only_candidates_counterexample :
  is_Some ((@scan_firmwares (demo_lib ∅ None) beta_dir ∅).1
             !! "sensor-1.2.3-beta.bin"%string) /\
  splitext (codes "sensor-1.2.3-beta.bin")
  = (codes "sensor-1.2.3-beta", codes ".bin") /\
  Re.search id REGEX_FILENAME (codes "sensor-1.2.3-beta")
  = Some [codes "sensor"; codes "1.2.3"] /\
  ~ strict_convention (codes "sensor-1.2.3-beta").
Proof.
  split; [vm_compute; eexists; reflexivity|].
  split; [reflexivity|]. split; [reflexivity|].
  intros Hs. apply strict_convention_last in Hs as (c & Hc & Hd).
  vm_compute in Hc. injection Hc as <-. unfold is_decimal in Hd. lia.
Qed.

Lemma scan_firmwares_records_only_candidates_witness :
  is_Some ((∅ : gmap string record) !! "sensor-1.2.3-beta.bin"%string) \/
  ("sensor-1.2.3-beta.bin"%string ∈ listdir beta_dir /\
   isfile beta_dir (codes "sensor-1.2.3-beta.bin") = true /\
   exists base ext,
     codes "sensor-1.2.3-beta.bin" = base ++ ext /\
     splitext (codes "sensor-1.2.3-beta.bin") = (base, ext) /\
     (ext = codes ".bin" \/ ext = codes ".zip") /\
     contains_convention base).
Proof.
  apply (@scan_firmwares_records_only_candidates (demo_lib ∅ None) beta_dir ∅
           (@scan_firmwares (demo_lib ∅ None) beta_dir ∅).1
           (@scan_firmwares (demo_lib ∅ None) beta_dir ∅).2).
  - vm_compute. reflexivity.
  - vm_compute. eexists. reflexivity.
Defined.

(** The first scenario of the specification, on the code. *)
Lemma sensor_scenario :
  @scan_firmwares (demo_lib ∅ None) sensor_dir ∅
  = ({["sensor-1.2.3.bin"%string :=
         {["filename"%string := PStr (codes "sensor-1.2.3.bin");
           "type"%string := PStr (codes "esp8266");
           "name"%string := PStr (codes "SensorFW");
           "version"%string := PStr (codes "1.2.3-rc1");
           "brand"%string := PStr (codes "Acme");
           "description"%string := PStr (codes "Temperature sensor firmware");
           "filename_version"%string := PStr (codes "1.2.3");
           "human_size"%string := PStr (codes "56.0B");
           "checksum"%string := PStr (codes "56")]}]}, Ok tt).
Proof. vm_compute. reflexivity. Qed.

Lemma scan_firmwares_filename_fields_witness :
  exists base ext m scan r,
    splitext (codes "sensor-1.2.3.bin") = (base, ext) /\
    Re.search id REGEX_FILENAME base = Some m /\
    @fw_types (demo_lib ∅ None) ext = Some scan /\
    scan sensor_dir (codes "sensor-1.2.3.bin")
      {["filename"%string := PStr (codes "sensor-1.2.3.bin")]} = (r, Ok tt) /\
    default ∅ ((@scan_firmwares (demo_lib ∅ None) sensor_dir ∅).1
                 !! "sensor-1.2.3.bin"%string) !! "filename_version"%string
      = Some (PStr (Re.group 2 m)) /\
    default ∅ ((@scan_firmwares (demo_lib ∅ None) sensor_dir ∅).1
                 !! "sensor-1.2.3.bin"%string) !! "name"%string
      = Some (default (PStr (Re.group 1 m)) (r !! "name"%string)) /\
    default ∅ ((@scan_firmwares (demo_lib ∅ None) sensor_dir ∅).1
                 !! "sensor-1.2.3.bin"%string) !! "version"%string
      = r !! "version"%string.
Proof.
  apply (@scan_firmwares_filename_fields (demo_lib ∅ None) sensor_dir
           (@scan_firmwares (demo_lib ∅ None) sensor_dir ∅).1
           "sensor-1.2.3.bin"%string);
    vm_compute; reflexivity.
Defined.

(** * Further properties of the code *)

(** ** More on [file_md5] *)

Lemma BUFFER_SIZE_pos : (0 < BUFFER_SIZE)%nat.
Proof. unfold BUFFER_SIZE. lia. Qed.

Lemma take_buffer_nil (rest : bytes) : take BUFFER_SIZE rest = [] -> rest = [].
Proof.
  pose proof BUFFER_SIZE_pos as Hn. destruct BUFFER_SIZE; [lia|].
  now destruct rest.
Qed.

Lemma read_chunks_cons fuel (rest : bytes) :
  rest <> [] ->
  read_chunks (S fuel) rest
  = take BUFFER_SIZE rest :: read_chunks fuel (drop BUFFER_SIZE rest).
Proof.
  intros Hne. cbn [read_chunks].
  destruct (take BUFFER_SIZE rest) eqn:Ht; [|reflexivity].
  now apply take_buffer_nil in Ht.
Qed.

Lemma read_chunks_nil fuel : read_chunks fuel [] = [].
Proof.
  destruct fuel; [reflexivity|]. cbn [read_chunks].
  now rewrite take_nil.
Qed.

(** The [i]-th read returns the [i]-th slice of [BUFFER_SIZE] bytes. *)
Lemma read_chunks_lookup fuel (rest : bytes) i :
  (length rest < fuel)%nat ->
  read_chunks fuel rest !! i
  = if decide (i * BUFFER_SIZE < length rest)%nat
    then Some (take BUFFER_SIZE (drop (i * BUFFER_SIZE) rest))
    else None.
Proof.
  pose proof BUFFER_SIZE_pos as Hn.
  revert rest i. induction fuel as [|fuel IH]; intros rest i Hlen; [lia|].
  destruct rest as [|b rest].
  { rewrite read_chunks_nil. cbn [length].
    destruct (decide _) as [Hlt|_]; [lia | reflexivity]. }
  rewrite read_chunks_cons by discriminate.
  destruct i as [|i].
  - cbn [lookup list_lookup]. rewrite Nat.mul_0_l, drop_0.
    destruct (decide _) as [_|Hge]; [reflexivity | cbn in Hge; lia].
  - cbn [lookup list_lookup].
    change (read_chunks fuel (drop BUFFER_SIZE (b :: rest)) !! i
            = if decide (S i * BUFFER_SIZE < length (b :: rest))%nat
              then Some (take BUFFER_SIZE (drop (S i * BUFFER_SIZE) (b :: rest)))
              else None).
    rewrite IH by (rewrite length_drop; cbn [length] in *; lia).
    rewrite length_drop, drop_drop.
    replace (BUFFER_SIZE + i * BUFFER_SIZE)%nat with (S i * BUFFER_SIZE)%nat by lia.
    destruct (decide (i * BUFFER_SIZE < length (b :: rest) - BUFFER_SIZE)%nat),
             (decide (S i * BUFFER_SIZE < length (b :: rest))%nat);
      try reflexivity; lia.
Qed.

Lemma read_chunks_concat fuel (rest : bytes) :
  (length rest < fuel)%nat -> concat (read_chunks fuel rest) = rest.
Proof.
  pose proof BUFFER_SIZE_pos as Hn.
  revert rest. induction fuel as [|fuel IH]; intros rest Hlen; [lia|].
  destruct rest as [|b rest]; [now rewrite read_chunks_nil|].
  rewrite read_chunks_cons by discriminate. cbn [concat].
  rewrite IH by (rewrite length_drop; cbn [length] in *; lia).
  apply take_drop.
Qed.

Section Md5.

Context `{PyLib}.

(** X1.  [file_md5] reads a readable file to its end in reads of
    [BUFFER_SIZE] bytes: the chunk fed to the hash by the [i]-th [update] is
    the [i]-th slice of 4096 bytes of the content (the last one may be
    shorter, none is empty), there are as many chunks as slices, and the
    chunks put together are the content. *)
Theorem file_md5_chunks dir path data :
  read_binary dir path = Ok data ->
  let chunks := read_chunks (S (length data)) data in
  file_md5 dir path = Ok (md5_hexdigest (fold_left md5_update chunks md5_new)) /\
  concat chunks = data /\
  (forall i, chunks !! i
             = if decide (i * 4096 < length data)%nat
               then Some (take 4096 (drop (i * 4096) data))
               else None) /\
  Forall (fun c : bytes => 0 < length c <= 4096)%nat chunks.
Proof.
  intros Hr chunks. subst chunks.
  split; [unfold file_md5; now rewrite Hr|].
  split; [apply read_chunks_concat; lia|].
  assert (Hlook : forall i,
            read_chunks (S (length data)) data !! i
            = if decide (i * 4096 < length data)%nat
              then Some (take 4096 (drop (i * 4096) data)) else None).
  { intros i. apply (read_chunks_lookup (S (length data)) data i). lia. }
  split; [exact Hlook|].
  apply Forall_lookup. intros i c Hc. rewrite Hlook in Hc.
  destruct (decide _) as [Hlt|]; [|discriminate]. injection Hc as <-.
  rewrite length_take, length_drop. lia.
Qed.

(** X2.  For a hash whose [update] is insensitive to how its input is cut
    (feeding [a] and then [b] is feeding [a ++ b], and feeding nothing
    changes nothing), as MD5 is, the digest [file_md5] returns is the digest
    of the whole content fed at once: reading by chunks changes nothing. *)
Theorem file_md5_whole_content dir path data :
  (forall h a b, md5_update (md5_update h a) b = md5_update h (a ++ b)) ->
  (forall h, md5_update h [] = h) ->
  read_binary dir path = Ok data ->
  file_md5 dir path = Ok (md5_hexdigest (md5_update md5_new data)).
Proof.
  intros Happ Hnil Hr. unfold file_md5, md5_of. rewrite Hr. do 2 f_equal.
  assert (Hfold : forall chunks h,
            fold_left md5_update chunks h = md5_update h (concat chunks)).
  { induction chunks as [|c chunks IH]; intros h; cbn.
    - now rewrite Hnil.
    - now rewrite IH, Happ. }
  rewrite Hfold, read_chunks_concat by lia. reflexivity.
Qed.

End Md5.

Lemma file_md5_chunks_witness :
  let chunks := read_chunks (S (length sensor_image)) sensor_image in
  @file_md5 (demo_lib ∅ None) sensor_dir (codes "sensor-1.2.3.bin")
  = Ok (decimal (fold_left (fun h chunk => (h + Z.of_nat (length chunk))%Z)
                   chunks 0%Z)) /\
  concat chunks = sensor_image /\
  (forall i, chunks !! i
             = if decide (i * 4096 < length sensor_image)%nat
               then Some (take 4096 (drop (i * 4096) sensor_image))
               else None) /\
  Forall (fun c : bytes => 0 < length c <= 4096)%nat chunks.
Proof.
  apply (@file_md5_chunks (demo_lib ∅ None) sensor_dir
           (codes "sensor-1.2.3.bin") sensor_image).
  reflexivity.
Defined.

Lemma file_md5_whole_content_witness :
  @file_md5 (demo_lib ∅ None) sensor_dir (codes "sensor-1.2.3.bin")
  = Ok (decimal (0 + Z.of_nat (length sensor_image))).
Proof.
  apply (@file_md5_whole_content (demo_lib ∅ None) sensor_dir
           (codes "sensor-1.2.3.bin") sensor_image).
  - intros h a b. cbn. rewrite length_app. lia.
  - intros h. cbn. lia.
  - reflexivity.
Defined.

(** ** More on [sizeof_fmt] *)

Lemma fmt_1f_integer (n : Z) :
  (0 <= n)%Z -> fmt_1f (inject_Z n) = decimal n ++ codes ".0".
Proof.
  intros Hn. unfold fmt_1f, round_half_even, Qltb, inject_Z.
  cbn [Qabs Qmult Qnum Qden]. rewrite Z.abs_eq by lia.
  change (QDen (n * 10 # 1 * 1)) with 1%Z.
  change (Qnum (n * 10 # 1 * 1)) with (n * 10)%Z.
  change (QDen (n # 1)) with 1%Z. change (Qnum (n # 1)) with n.
  change (Qnum 0) with 0%Z. change (QDen 0) with 1%Z.
  rewrite Z.div_1_r, Z.mod_1_r.
  change (2 * 0 <? Z.pos (1 * 1))%Z with true. cbv iota.
  rewrite Z.div_mul by lia. rewrite Z.mod_mul by lia.
  destruct (Z.ltb_spec (n * 1) (0 * 1)); [lia|]. reflexivity.
Qed.

(** X3.  A size below 1024 bytes is printed as the number itself with one
    zero decimal and the bare unit: 0 gives 0.0B and 1023 gives 1023.0B. *)
Theorem sizeof_fmt_bytes (n : Z) :
  (0 <= n < 1024)%Z -> sizeof_fmt (Int n) = Ok (decimal n ++ codes ".0B").
Proof.
  intros Hn. unfold sizeof_fmt, UNITS. rewrite sizeof_loop_cons.
  unfold abs_lt_1024, format_1f, to_float.
  rewrite float_of_int_small
    by (rewrite Z.abs_eq by lia; eapply Z.lt_trans; [apply Hn | reflexivity]).
  rewrite Z.abs_eq by lia.
  destruct (Z.ltb_spec n 1024); [|lia].
  rewrite fmt_1f_integer by lia. now rewrite <- app_assoc.
Qed.

Lemma sizeof_fmt_bytes_witness :
  sizeof_fmt (Int 1023) = Ok (decimal 1023 ++ codes ".0B").
Proof. apply (sizeof_fmt_bytes 1023). lia. Defined.

(** The largest float is (2^53 - 1) * 2^971; an integer is converted to a
    float unless it rounds to 2^1024, which it does from 2^1024 - 2^970. *)
Lemma float_of_int_overflow z :
  (2 ^ 1024 - 2 ^ 970 <= Z.abs z)%Z -> float_of_int z = None.
Proof.
  intros Hz. unfold float_of_int.
  set (a := Z.abs z) in *.
  assert (H53 : (2 ^ 53 < 2 ^ 1024 - 2 ^ 970)%Z) by reflexivity.
  destruct (Z.ltb_spec a (2 ^ 53)) as [|_]; [lia|].
  assert (Hpos : (0 < a)%Z) by lia.
  pose proof (Z.log2_spec a Hpos) as [Hl1 Hl2].
  assert (Hl : (1023 <= Z.log2 a)%Z).
  { apply Z.log2_le_pow2; [lia|].
    assert (2 ^ 1023 < 2 ^ 1024 - 2 ^ 970)%Z by reflexivity. lia. }
  set (e := (Z.log2 a - 52)%Z) in *.
  assert (He : (971 <= e)%Z) by (subst e; lia).
  assert (Hpe : (0 < 2 ^ e)%Z) by (apply Z.pow_pos_nonneg; lia).
  assert (Hlog : (2 ^ Z.log2 a = 2 ^ 52 * 2 ^ e)%Z).
  { rewrite <- Z.pow_add_r by lia. f_equal. subst e. lia. }
  assert (Hlog' : (2 ^ Z.succ (Z.log2 a) = 2 ^ 53 * 2 ^ e)%Z).
  { rewrite <- Z.pow_add_r by lia. f_equal. subst e. lia. }
  set (q := (a / 2 ^ e)%Z).
  set (r := (a mod 2 ^ e)%Z).
  assert (Hqr : (a = 2 ^ e * q + r)%Z) by (apply Z.div_mod; lia).
  assert (Hr : (0 <= r < 2 ^ e)%Z) by (apply Z.mod_pos_bound; lia).
  assert (Hq1 : (2 ^ 52 <= q)%Z) by (apply Z.div_le_lower_bound; lia).
  assert (Hq2 : (q < 2 ^ 53)%Z) by (apply Z.div_lt_upper_bound; lia).
  set (q' := if (_ || _)%bool then (q + 1)%Z else q).
  assert (Hgoal : (2 ^ 1024 <= q' * 2 ^ e)%Z).
  { clearbody q r. clearbody e.
    destruct (Z.eq_dec e 971%Z) as [He971|Hne].
    - (* the top binade: the mantissa is 2^53 - 1 and is rounded up *)
      subst e.
      assert (H1024 : (2 ^ 1024 = 2 ^ 53 * 2 ^ 971)%Z) by reflexivity.
      assert (H970 : (2 ^ 971 = 2 * 2 ^ 970)%Z) by reflexivity.
      assert (Hq : q = (2 ^ 53 - 1)%Z) by nia.
      assert (Hrh : (2 ^ 970 <= r)%Z) by nia.
      assert (Hq'' : q' = (q + 1)%Z).
      { subst q'. change (2 ^ (971 - 1))%Z with (2 ^ 970)%Z.
        destruct (Z.ltb_spec (2 ^ 970) r) as [|Hle]; [reflexivity|].
        assert (r = 2 ^ 970)%Z by lia.
        destruct (Z.eqb_spec r (2 ^ 970)); [|lia].
        rewrite Hq. reflexivity. }
      rewrite Hq'', Hq, H1024. lia.
    - assert (Hq' : (q <= q')%Z) by (subst q'; destruct (_ || _)%bool; lia).
      assert (H972 : (2 ^ 972 <= 2 ^ e)%Z) by (apply Z.pow_le_mono_r; lia).
      assert (H1024 : (2 ^ 1024 = 2 ^ 52 * 2 ^ 972)%Z) by reflexivity.
      nia. }
  destruct (Z.ltb_spec (q' * 2 ^ e) (2 ^ 1024)); [lia | reflexivity].
Qed.

Lemma float_of_int_in_range z :
  (Z.abs z < 2 ^ 1024 - 2 ^ 970)%Z -> exists v, float_of_int z = Some v.
Proof.
  intros Hz. unfold float_of_int.
  set (a := Z.abs z) in *.
  destruct (Z.ltb_spec a (2 ^ 53)) as [|H53]; [eauto|].
  assert (Hpos : (0 < a)%Z) by (pose proof (Z.pow_pos_nonneg 2 53); lia).
  pose proof (Z.log2_spec a Hpos) as [Hl1 Hl2].
  assert (Hl53 : (53 <= Z.log2 a)%Z) by (apply Z.log2_le_pow2; lia).
  assert (Hl1024 : (Z.log2 a < 1024)%Z).
  { apply Z.log2_lt_pow2; [lia|].
    assert (2 ^ 1024 - 2 ^ 970 < 2 ^ 1024)%Z by reflexivity. lia. }
  set (e := (Z.log2 a - 52)%Z) in *.
  assert (He : (1 <= e <= 971)%Z) by (subst e; lia).
  assert (Hpe : (0 < 2 ^ e)%Z) by (apply Z.pow_pos_nonneg; lia).
  assert (Hlog : (2 ^ Z.log2 a = 2 ^ 52 * 2 ^ e)%Z).
  { rewrite <- Z.pow_add_r by lia. f_equal. subst e. lia. }
  assert (Hlog' : (2 ^ Z.succ (Z.log2 a) = 2 ^ 53 * 2 ^ e)%Z).
  { rewrite <- Z.pow_add_r by lia. f_equal. subst e. lia. }
  set (q := (a / 2 ^ e)%Z).
  set (r := (a mod 2 ^ e)%Z).
  assert (Hqr : (a = 2 ^ e * q + r)%Z) by (apply Z.div_mod; lia).
  assert (Hr : (0 <= r < 2 ^ e)%Z) by (apply Z.mod_pos_bound; lia).
  assert (Hq1 : (2 ^ 52 <= q)%Z) by (apply Z.div_le_lower_bound; lia).
  assert (Hq2 : (q < 2 ^ 53)%Z) by (apply Z.div_lt_upper_bound; lia).
  set (q' := if (_ || _)%bool then (q + 1)%Z else q).
  assert (Hgoal : (q' * 2 ^ e < 2 ^ 1024)%Z).
  { clearbody q r. clearbody e.
    destruct (Z.eq_dec e 971%Z) as [He971|Hne].
    - subst e.
      assert (H1024 : (2 ^ 1024 = 2 ^ 53 * 2 ^ 971)%Z) by reflexivity.
      assert (H970 : (2 ^ 971 = 2 * 2 ^ 970)%Z) by reflexivity.
      destruct (Z.eq_dec q (2 ^ 53 - 1)%Z) as [Hq|Hq].
      + assert (Hrh : (r < 2 ^ 970)%Z) by nia.
        assert (Hq'' : q' = q).
        { subst q'. change (2 ^ (971 - 1))%Z with (2 ^ 970)%Z.
          destruct (Z.ltb_spec (2 ^ 970) r); [lia|].
          destruct (Z.eqb_spec r (2 ^ 970)); [lia | reflexivity]. }
        rewrite Hq''. nia.
      + assert (Hq' : (q' <= q + 1)%Z) by (subst q'; destruct (_ || _)%bool; lia).
        nia.
    - assert (Hq' : (q' <= q + 1)%Z) by (subst q'; destruct (_ || _)%bool; lia).
      assert (H970 : (2 ^ e <= 2 ^ 970)%Z) by (apply Z.pow_le_mono_r; lia).
      assert (H1024 : (2 ^ 1024 = 2 * (2 ^ 53 * 2 ^ 970))%Z) by reflexivity.
      nia. }
  destruct (Z.ltb_spec (q' * 2 ^ e) (2 ^ 1024)); [eauto | lia].
Qed.

(** X4.  [sizeof_fmt] raises exactly on the integers too large for a float:
    it raises OverflowError when the magnitude of the number is 2^1024 -
    2^970 or more (the first number that rounds to 2^1024), and returns a
    string on every other integer. *)
Theorem sizeof_fmt_raises_iff (n : Z) :
  sizeof_fmt (Int n) = Raise OverflowError
  <-> (2 ^ 1024 - 2 ^ 970 <= Z.abs n)%Z.
Proof.
  split.
  - intros Hraise.
    destruct (Z.le_gt_cases (2 ^ 1024 - 2 ^ 970) (Z.abs n)) as [|Hlt];
      [assumption|exfalso].
    destruct (float_of_int_in_range n) as [v Hv]; [lia|].
    revert Hraise. unfold sizeof_fmt, UNITS. rewrite sizeof_loop_cons.
    unfold format_1f, div_1024, to_float. rewrite Hv.
    destruct (abs_lt_1024 (Int n)); [discriminate|].
    destruct (sizeof_loop_float ["K"; "M"; "G"; "T"; "P"; "E"; "Z"]%string
                (v / (1024 # 1))%Q (codes "B")) as (k & _ & Hloop & _).
    rewrite Hloop. discriminate.
  - intros Hbig. unfold sizeof_fmt, UNITS. rewrite sizeof_loop_cons.
    unfold abs_lt_1024, div_1024, to_float.
    rewrite (float_of_int_overflow n Hbig).
    assert (1024 < 2 ^ 1024 - 2 ^ 970)%Z by reflexivity.
    destruct (Z.ltb_spec (Z.abs n) 1024); [lia | reflexivity].
Qed.

Lemma scaled_num_den x k :
  Qnum (scaled x k) = Qnum x /\
  QDen (scaled x k) = (QDen x * 1024 ^ Z.of_nat k)%Z.
Proof.
  induction k as [|k [IHn IHd]].
  - cbn [scaled Nat.iter]. change (scaled x 0) with x.
    rewrite Z.pow_0_r, Z.mul_1_r. auto.
  - change (scaled x (S k)) with (scaled x k / (1024 # 1))%Q.
    destruct (scaled x k) as [a b]. cbn [Qnum Qden] in *.
    unfold Qdiv, Qinv, Qmult. cbn [Qnum Qden].
    rewrite Nat2Z.inj_succ, Z.pow_succ_r by lia.
    rewrite Pos2Z.inj_mul, IHd, IHn. split; lia.
Qed.

Lemma below_1024_scaled (n : Z) k :
  (0 <= n)%Z ->
  below_1024 (scaled (inject_Z n) k) = (n <? 1024 ^ Z.of_nat (S k))%Z.
Proof.
  intros Hn. destruct (scaled_num_den (inject_Z n) k) as [Hnum Hden].
  unfold below_1024, Qltb.
  destruct (scaled (inject_Z n) k) as [a b]. cbn [Qabs Qnum Qden] in *.
  subst a. rewrite Hden. cbn [Qnum Qden inject_Z].
  rewrite Nat2Z.inj_succ, Z.pow_succ_r by lia.
  rewrite Z.abs_eq by lia.
  destruct (Z.ltb_spec (n * 1) (1024 * (1 * 1024 ^ Z.of_nat k)));
    destruct (Z.ltb_spec n (1024 * 1024 ^ Z.of_nat k)); try reflexivity; lia.
Qed.

(** X5.  Below 2^53 bytes, where every size is a float, the unit is the one
    of the magnitude of the size: a size [n] with 1024^k <= n < 1024^(k+1)
    (any size below 1024 for the bare unit) is printed as [n] divided by
    1024^k, with one decimal, and the [k]-th unit. *)
Theorem sizeof_fmt_magnitude (n : Z) (k : nat) :
  (0 <= n < 2 ^ 53)%Z ->
  k = O \/ (1024 ^ Z.of_nat k <= n)%Z ->
  (n < 1024 ^ Z.of_nat (S k))%Z ->
  sizeof_fmt (Int n)
  = Ok (fmt_1f (scaled (inject_Z n) k)
        ++ codes (nth k UNIT_NAMES ""%string) ++ codes "B").
Proof.
  intros Hn Hlo Hhi.
  assert (Hbelow : forall j, below_1024 (scaled (inject_Z n) j)
                             = (n <? 1024 ^ Z.of_nat (S j))%Z)
    by (intros j; apply below_1024_scaled; lia).
  unfold sizeof_fmt, UNITS. rewrite sizeof_loop_cons.
  unfold abs_lt_1024, format_1f, div_1024, to_float.
  rewrite float_of_int_small by (rewrite Z.abs_eq; lia).
  rewrite Z.abs_eq by lia.
  destruct (Z.ltb_spec n 1024) as [Hlt|Hge].
  - destruct k as [|k]; [reflexivity|].
    destruct Hlo as [|Hlo]; [discriminate|].
    assert (1024 ^ 1 <= 1024 ^ Z.of_nat (S k))%Z
      by (apply Z.pow_le_mono_r; lia).
    lia.
  - destruct (sizeof_loop_float ["K"; "M"; "G"; "T"; "P"; "E"; "Z"]%string
                (inject_Z n / (1024 # 1))%Q (codes "B"))
      as (k' & Hk' & Hloop & Hbefore & Hat).
    cbn [length] in Hk', Hat. rewrite scaled_succ in Hat.
    rewrite Hloop, scaled_succ.
    assert (Hfirst : forall j, (j < S k')%nat ->
              below_1024 (scaled (inject_Z n) j) = false).
    { intros [|j] Hj.
      - rewrite Hbelow. apply Z.ltb_ge. change (1024 ^ Z.of_nat 1)%Z with 1024%Z.
        lia.
      - rewrite <- scaled_succ. apply Hbefore. lia. }
    assert (Hk : k = S k').
    { destruct (Nat.lt_trichotomy k (S k')) as [Hlt|[Heq|Hgt]]; [|exact Heq|].
      - specialize (Hfirst k Hlt). rewrite Hbelow in Hfirst.
        apply Z.ltb_ge in Hfirst. lia.
      - assert (Hk7 : (k' < 7)%nat).
        { destruct (Nat.lt_ge_cases k' 7) as [|Hge7]; [assumption|exfalso].
          assert (1024 ^ 9 <= 1024 ^ Z.of_nat k)%Z
            by (apply Z.pow_le_mono_r; lia).
          assert (2 ^ 53 < 1024 ^ 9)%Z by reflexivity.
          destruct Hlo as [|Hlo]; lia. }
        specialize (Hat Hk7). rewrite Hbelow in Hat. apply Z.ltb_lt in Hat.
        destruct Hlo as [|Hlo]; [lia|].
        assert (1024 ^ Z.of_nat (S (S k')) <= 1024 ^ Z.of_nat k)%Z
          by (apply Z.pow_le_mono_r; lia).
        lia. }
    subst k. reflexivity.
Qed.

Lemma sizeof_fmt_magnitude_witness :
  sizeof_fmt (Int 123456789)
  = Ok (fmt_1f (scaled (inject_Z 123456789) 2)
        ++ codes (nth 2 UNIT_NAMES ""%string) ++ codes "B").
Proof.
  apply (sizeof_fmt_magnitude 123456789 2).
  - split; [lia | reflexivity].
  - right. reflexivity || (cbn; lia).
  - reflexivity.
Defined.

(** ** More on the patterns: completeness and groups *)

Section Completeness.

Context {A : Type} (code : A -> N).

Lemma greedy_sound_caps k cont prev (s : list A) c c' :
  Re.greedy code k cont prev s c = Some c' ->
  exists w rest prev',
    s = w ++ rest /\ Forall (fun x => Re.accepts code k x = true) w /\
    cont prev' rest (pushes w c) = Some c'.
Proof.
  revert prev c. induction s as [|x s IH]; intros prev c; cbn.
  - intros Hc. exists [], [], prev. auto.
  - destruct (Re.accepts code k x) eqn:Hx.
    + destruct (Re.greedy code k cont (Some x) s (Re.push x c)) eqn:Hg.
      * intros [= <-]. destruct (IH _ _ Hg) as (w & rest & p & -> & Hw & Hc).
        exists (x :: w), rest, p. auto.
      * intros Hc. exists [], (x :: s), prev. auto.
    + intros Hc. exists [], (x :: s), prev. auto.
Qed.





End Completeness.










(** ** More on the bundle inspector *)

Section BundleMore.

Context `{PyLib}.

(** The three ways the manifest probe can end. *)
Lemma probe_package_json_cases (bundle : gmap string bytes) db :
  probe_package_json bundle db = (db, Ok tt) \/
  (exists d, probe_package_json bundle db
             = (<["description"%string := d]> db, Ok tt)) \/
  (exists d v, probe_package_json bundle db
               = (<["type"%string := PStr (codes "javascript")]>
                    (<["version"%string := v]>
                       (<["description"%string := d]> db)), Ok tt)).
Proof.
  unfold probe_package_json, try_except_pass_else, bind, lift, loads, setitem,
    zip_read.
  destruct (bundle !! "package.json"%string) as [data|]; [|now left].
  destruct (json_loads data) as [package|]; [|now left].
  destruct (getitem package "description") as [d|]; [|now left].
  destruct (getitem package "version") as [v|]; right; [right|left]; eauto.
Qed.

(** The ways [scan_bundle_firmware] can end. *)
Lemma scan_bundle_firmware_cases dir fw_file db :
  scan_bundle_firmware dir fw_file db = (db, Ok tt) \/
  scan_bundle_firmware dir fw_file db = (db, Raise BadZipFile) \/
  exists bundle : gmap string bytes,
    scan_bundle_firmware dir fw_file db = probe_package_json bundle db.
Proof.
  unfold scan_bundle_firmware, is_zipfile, ZipFile.
  destruct (read_binary dir fw_file) as [data|e]; cbn [negb]; [|now left].
  destruct (zip_magic data); cbn [negb]; [|now left].
  unfold bind, lift.
  destruct (zip_members data) as [bundle|]; [|now right; left].
  right; right. exists bundle. cbn. now rewrite probe_main_py_skip.
Qed.


(** X9.  The manifest probe writes nothing unless the manifest has a
    description: when [package.json] is missing, does not parse, or parses
    to something without a description (an object without that key, even if
    it has a version, or a value that is no object), a valid archive leaves
    the record exactly as it was, and its type unset. *)
Theorem scan_bundle_firmware_no_description dir fw_file data
    (bundle : gmap string bytes) db :
  read_binary dir fw_file = Ok data ->
  zip_magic data = true ->
  zip_members data = Some bundle ->
  (bundle !! "package.json"%string = None \/
   exists manifest, bundle !! "package.json"%string = Some manifest /\
     (json_loads manifest = None \/
      exists package e, json_loads manifest = Some package /\
        getitem package "description" = Raise e)) ->
  scan_bundle_firmware dir fw_file db = (db, Ok tt).
Proof.
  intros Hr Hm Hz Hcase.
  rewrite (scan_bundle_firmware_open _ _ _ _ _ Hr Hm Hz).
  unfold probe_package_json, try_except_pass_else, bind, lift, loads, zip_read.
  destruct Hcase as [Hb|(manifest & Hb & [Hj|(package & e & Hj & Hd)])];
    rewrite Hb; [reflexivity | |]; rewrite Hj; [reflexivity|].
  now rewrite Hd.
Qed.

(** X10.  The constructor of [ZipFile] is called outside the [try]
    blocks: when a file passes [zipfile.is_zipfile] and the constructor
    raises BadZipFile, the exception leaves [scan_bundle_firmware], and the
    turn of the loop of [scan_firmwares] ends with it, the record holding
    the filename only. *)
Theorem scan_entry_bad_zip dir fw_file nd data base m
    (db : gmap string record) :
  dir_lookup dir (codes fw_file) = Some nd ->
  is_file nd = true ->
  content nd = Some data ->
  splitext (codes fw_file) = (base, codes ".zip") ->
  Re.search id REGEX_FILENAME base = Some m ->
  zip_magic data = true ->
  zip_members data = None ->
  scan_bundle_firmware dir (codes fw_file) ∅ = (∅, Raise BadZipFile) /\
  scan_entry dir fw_file db
  = (<[fw_file := {["filename"%string := PStr (codes fw_file)]}]> db,
     Raise BadZipFile).
Proof.
  intros Hl Hf Hc Hext Hm Hz Hmem.
  assert (Hbad : forall db0, scan_bundle_firmware dir (codes fw_file) db0
                             = (db0, Raise BadZipFile)).
  { intros db0. unfold scan_bundle_firmware, is_zipfile, ZipFile.
    rewrite (read_binary_content _ _ _ _ Hl Hc), Hz. cbn [negb].
    unfold bind, lift. now rewrite Hmem. }
  split; [apply Hbad|].
  unfold scan_entry, isfile. rewrite Hl, Hf, Hext. cbn [negb].
  rewrite bool_decide_eq_true_2
    by (apply list_elem_of_In; right; left; reflexivity).
  cbn [negb]. rewrite Hm. unfold fill_record. rewrite fw_types_zip.
  rewrite bind_eq. unfold setitem at 1. rewrite bind_eq, Hbad.
  now rewrite insert_empty.
Qed.

End BundleMore.

Lemma scan_bundle_firmware_no_description_witness :
  @scan_bundle_firmware
    (demo_lib {["package.json"%string := pkg_json_no_description]}
       (Some pkg_manifest_no_description))
    tool_dir (codes "tool-2.0.0.zip")
    {["filename"%string := PStr (codes "tool-2.0.0.zip")]}
  = ({["filename"%string := PStr (codes "tool-2.0.0.zip")]}, Ok tt).
Proof.
  apply (@scan_bundle_firmware_no_description
           (demo_lib {["package.json"%string := pkg_json_no_description]}
              (Some pkg_manifest_no_description))
           tool_dir (codes "tool-2.0.0.zip") zip_data
           {["package.json"%string := pkg_json_no_description]});
    try reflexivity.
  right. exists pkg_json_no_description. split; [reflexivity|].
  right. exists pkg_manifest_no_description, KeyError. split; reflexivity.
Defined.

Lemma scan_entry_bad_zip_witness :
  @scan_bundle_firmware damaged_zip_lib tool_dir (codes "tool-2.0.0.zip") ∅
  = (∅, Raise BadZipFile) /\
  @scan_entry damaged_zip_lib tool_dir "tool-2.0.0.zip" ∅
  = (<["tool-2.0.0.zip"%string :=
         {["filename"%string := PStr (codes "tool-2.0.0.zip")]}]> ∅,
     Raise BadZipFile).
Proof.
  apply (@scan_entry_bad_zip damaged_zip_lib tool_dir "tool-2.0.0.zip"%string
           (Node true 4 (Some zip_data)) zip_data (codes "tool-2.0.0")
           [codes "tool"; codes "2.0.0"] ∅);
    reflexivity.
Defined.

(** ** More on the binary marker extractor *)

Lemma read_description_cases dir fw_file db :
  read_description dir fw_file db
  = if isfile dir (sidecar fw_file) then
      match read_text dir (sidecar fw_file) with
      | Ok t => (<["description"%string := PStr t]> db, Ok tt)
      | Raise e => (db, Raise e)
      end
    else (db, Ok tt).
Proof.
  unfold read_description, when, sidecar.
  destruct (isfile dir _); [|reflexivity].
  rewrite bind_eq. unfold lift at 1.
  destruct (read_text dir _); reflexivity.
Qed.

(** The three decoding steps of [scan_esp_firmware] on a readable image:
    they end with UnicodeDecodeError exactly when a captured field is not
    UTF-8, and hand over to the description otherwise. *)
Lemma scan_esp_firmware_decoded dir fw_file data db :
  read_binary dir fw_file = Ok data ->
  exists db3,
    (forall k : string, k <> "name"%string -> k <> "version"%string ->
                        k <> "brand"%string ->
       db3 !! k = <["type"%string := PStr (codes "esp8266")]> db !! k) /\
    ((scan_esp_firmware dir fw_file db = (db3, Raise UnicodeDecodeError) /\
      (undecodable REGEX_NAME data \/ undecodable REGEX_VERSION data
       \/ undecodable REGEX_BRAND data)) \/
     (scan_esp_firmware dir fw_file db = read_description dir fw_file db3 /\
      ~ undecodable REGEX_NAME data /\ ~ undecodable REGEX_VERSION data /\
      ~ undecodable REGEX_BRAND data)).
Proof.
  intros Hr. rewrite (scan_esp_firmware_read _ _ _ _ Hr).
  set (db0 := <["type"%string := PStr (codes "esp8266")]> db).
  unfold undecodable.
  set (rn := Re.search Byte.to_N REGEX_NAME data).
  set (rv := Re.search Byte.to_N REGEX_VERSION data).
  set (rb := Re.search Byte.to_N REGEX_BRAND data).
  rewrite bind_eq.
  destruct (set_decoded_cases "name" rn db0) as [[db1 H1]|[H1 Hu]].
  2:{ exists db0. rewrite H1. split; [reflexivity|]. left. tauto. }
  rewrite H1, bind_eq.
  assert (Hname : ~ exists m, rn = Some m /\ utf8_decode (Re.group 1 m) = None).
  { intros (m & Hs & Hd). rewrite Hs in H1.
    rewrite set_decoded_raises in H1 by exact Hd. discriminate. }
  assert (F1 : forall k : string, k <> "name"%string -> db1 !! k = db0 !! k)
    by (intros k Hk; apply (set_decoded_frame _ _ _ _ _ k H1); now left).
  destruct (set_decoded_cases "version" rv db1) as [[db2 H2]|[H2 Hu]].
  2:{ exists db1. rewrite H2. split; [intros; now apply F1|]. left. tauto. }
  rewrite H2, bind_eq.
  assert (Hversion :
            ~ exists m, rv = Some m /\ utf8_decode (Re.group 1 m) = None).
  { intros (m & Hs & Hd). rewrite Hs in H2.
    rewrite set_decoded_raises in H2 by exact Hd. discriminate. }
  assert (F2 : forall k : string, k <> "version"%string -> db2 !! k = db1 !! k)
    by (intros k Hk; apply (set_decoded_frame _ _ _ _ _ k H2); now left).
  destruct (set_decoded_cases "brand" rb db2) as [[db3 H3]|[H3 Hu]].
  2:{ exists db2. rewrite H3.
      split; [intros; rewrite F2, F1 by assumption; reflexivity|].
      left. tauto. }
  rewrite H3.
  assert (Hbrand : ~ exists m, rb = Some m /\ utf8_decode (Re.group 1 m) = None).
  { intros (m & Hs & Hd). rewrite Hs in H3.
    rewrite set_decoded_raises in H3 by exact Hd. discriminate. }
  assert (F3 : forall k : string, k <> "brand"%string -> db3 !! k = db2 !! k)
    by (intros k Hk; apply (set_decoded_frame _ _ _ _ _ k H3); now left).
  exists db3.
  split; [intros; rewrite F3, F2, F1 by assumption; reflexivity|].
  right. tauto.
Qed.

(** X11.  [scan_esp_firmware] ends normally exactly when the image can
    be read, none of the three captured fields fails to decode, and the
    text file beside the image, if it is a regular file, can be read and
    decoded.  In every other case it raises. *)
Theorem scan_esp_firmware_ok_iff dir fw_file db :
  (scan_esp_firmware dir fw_file db).2 = Ok tt <->
  exists data,
    read_binary dir fw_file = Ok data /\
    ~ undecodable REGEX_NAME data /\
    ~ undecodable REGEX_VERSION data /\
    ~ undecodable REGEX_BRAND data /\
    (isfile dir (sidecar fw_file) = true ->
     exists t, read_text dir (sidecar fw_file) = Ok t).
Proof.
  destruct (read_binary dir fw_file) as [data|e] eqn:Hr.
  2:{ split; [|intros (data & [=] & _)].
      unfold scan_esp_firmware. rewrite bind_eq. unfold setitem at 1.
      rewrite bind_eq. unfold lift at 1. rewrite Hr. discriminate. }
  destruct (scan_esp_firmware_decoded dir fw_file data db Hr)
    as (db3 & _ & [(Hs & Hu)|(Hs & Hn & Hv & Hb)]); rewrite Hs.
  - split; [discriminate|]. intros (data' & [= <-] & ?). tauto.
  - rewrite read_description_cases.
    destruct (isfile dir (sidecar fw_file)).
    + destruct (read_text dir (sidecar fw_file)) as [t|e].
      * split; [|reflexivity]. intros _. exists data. eauto 10.
      * split; [discriminate|].
        intros (data' & _ & _ & _ & _ & Ht).
        destruct (Ht eq_refl) as (t & [=]).
    + split; [|reflexivity]. intros _. exists data.
      repeat split; try assumption. discriminate.
Qed.

(** X12.  The description of a native image comes from the text file
    beside it and from nowhere else.  On a readable image whose fields
    decode: if [<base name>.txt] is a regular file, its text (decoded, line
    ends translated) becomes the description, and a failure to read or
    decode it leaves [scan_esp_firmware] as the exception it is, the
    description unchanged; if there is no such regular file, the description
    is left as it was. *)
Theorem scan_esp_firmware_sidecar dir fw_file data db :
  read_binary dir fw_file = Ok data ->
  ~ undecodable REGEX_NAME data ->
  ~ undecodable REGEX_VERSION data ->
  ~ undecodable REGEX_BRAND data ->
  let db' := (scan_esp_firmware dir fw_file db).1 in
  let out := (scan_esp_firmware dir fw_file db).2 in
  if isfile dir (sidecar fw_file) then
    match read_text dir (sidecar fw_file) with
    | Ok t => out = Ok tt /\ db' !! "description"%string = Some (PStr t)
    | Raise e =>
        out = Raise e /\ db' !! "description"%string = db !! "description"%string
    end
  else out = Ok tt /\ db' !! "description"%string = db !! "description"%string.
Proof.
  intros Hr Hn Hv Hb. cbv zeta.
  destruct (scan_esp_firmware_decoded dir fw_file data db Hr)
    as (db3 & F & [(_ & Hu)|(Hs & _)]); [tauto|].
  assert (Hd : db3 !! "description"%string = db !! "description"%string)
    by (rewrite F by discriminate; now rewrite lookup_insert_ne).
  rewrite Hs, read_description_cases.
  destruct (isfile dir (sidecar fw_file)); [|now split].
  destruct (read_text dir (sidecar fw_file)) as [t|e]; cbn [fst snd].
  - split; [reflexivity|]. now rewrite lookup_insert_eq.
  - now split.
Qed.

(** Whatever happens, [scan_esp_firmware] writes no field but its five. *)
Lemma scan_esp_firmware_frame dir fw_file db (k : string) :
  k ∉ esp_fields ->
  (scan_esp_firmware dir fw_file db).1 !! k = db !! k.
Proof.
  intros Hk.
  assert (Hne : k <> "type"%string /\ k <> "name"%string /\
                k <> "version"%string /\ k <> "brand"%string /\
                k <> "description"%string).
  { unfold esp_fields in Hk. rewrite !not_elem_of_cons in Hk. tauto. }
  destruct Hne as (Kt & Kn & Kv & Kb & Kd).
  destruct (read_binary dir fw_file) as [data|e] eqn:Hr.
  2:{ unfold scan_esp_firmware. rewrite bind_eq. unfold setitem at 1.
      rewrite bind_eq. unfold lift at 1. rewrite Hr. cbn [fst].
      now rewrite lookup_insert_ne. }
  destruct (scan_esp_firmware_decoded dir fw_file data db Hr)
    as (db3 & F & [(Hs & _)|(Hs & _)]); rewrite Hs.
  - cbn [fst]. rewrite F by assumption. now rewrite lookup_insert_ne.
  - rewrite read_description_frame by assumption.
    rewrite F by assumption. now rewrite lookup_insert_ne.
Qed.

Lemma scan_esp_firmware_sidecar_witness :
  let r := scan_esp_firmware notes_dir (codes "fw-1.0.0.bin") ∅ in
  r.2 = Ok tt /\
  r.1 !! "description"%string
  = Some (PStr (codes "one" ++ [10] ++ codes "two" ++ [10])).
Proof.
  cbv zeta.
  assert (Hn : ~ undecodable REGEX_NAME (bytes_of "abc"))
    by (intros (m & Hs & _); vm_compute in Hs; discriminate).
  assert (Hv : ~ undecodable REGEX_VERSION (bytes_of "abc"))
    by (intros (m & Hs & _); vm_compute in Hs; discriminate).
  assert (Hb : ~ undecodable REGEX_BRAND (bytes_of "abc"))
    by (intros (m & Hs & _); vm_compute in Hs; discriminate).
  exact (scan_esp_firmware_sidecar notes_dir (codes "fw-1.0.0.bin")
           (bytes_of "abc") ∅ eq_refl Hn Hv Hb).
Defined.

(** ** More on the loop of [scan_firmwares] *)

Lemma codes_inj (s t : string) : codes s = codes t -> s = t.
Proof.
  unfold codes. intros Heq.
  rewrite <- (string_of_list_ascii_of_string s),
          <- (string_of_list_ascii_of_string t).
  f_equal. revert Heq.
  generalize (list_ascii_of_string s) (list_ascii_of_string t).
  induction l as [|a l IH]; intros [|b l']; cbn; try discriminate;
    [reflexivity|].
  intros [= Hab Hl]. f_equal; [|now apply IH].
  rewrite <- (ascii_N_embedding a), <- (ascii_N_embedding b). now f_equal.
Qed.

(** What [os.path.join(path, name)] names is an entry of the listing, and
    with names that are all different, every entry of the listing. *)
Lemma dir_lookup_Some dir (k : string) nd :
  dir_lookup dir (codes k) = Some nd -> (k, nd) ∈ dir.
Proof.
  induction dir as [|[n nd'] dir IH]; cbn [dir_lookup]; [discriminate|].
  case_bool_decide as Hn.
  - intros [= <-]. apply codes_inj in Hn as ->. apply elem_of_cons. now left.
  - intros Hl. apply elem_of_cons. right. now apply IH.
Qed.


Lemma dir_lookup_listed dir (k : string) nd :
  dir_lookup dir (codes k) = Some nd -> k ∈ listdir dir.
Proof.
  intros Hl. apply dir_lookup_Some in Hl.
  apply list_elem_of_In, in_map_iff. exists (k, nd).
  split; [reflexivity | now apply list_elem_of_In].
Qed.

Lemma candidate_listed dir k ext m :
  candidate dir k = Some (ext, m) -> k ∈ listdir dir.
Proof.
  unfold candidate, isfile.
  destruct (dir_lookup dir (codes k)) as [nd|] eqn:Hl; [|discriminate].
  intros _. exact (dir_lookup_listed _ _ _ Hl).
Qed.

Section Loop.

Context `{PyLib}.

(** The mapping after a loop that ends normally, key by key. *)
Lemma scan_loop_lookup dir names (db db' : gmap string record) :
  scan_loop dir names db = (db', Ok tt) ->
  forall k,
    db' !! k
    = match (if decide (k ∈ names) then candidate dir k else None) with
      | Some (ext, m) => Some (fill_record dir k ext m ∅).1
      | None => db !! k
      end.
Proof.
  revert db. induction names as [|x names IH]; intros db; cbn [scan_loop].
  - intros [= <-] k. rewrite decide_False by apply not_elem_of_nil.
    reflexivity.
  - assert (Hhead : x ∈ x :: names) by (apply elem_of_cons; now left).
    assert (Htail : forall k, k <> x -> (k ∈ x :: names <-> k ∈ names))
      by (intros k Hne; rewrite elem_of_cons; tauto).
    rewrite scan_entry_candidate.
    destruct (candidate dir x) as [[ext m]|] eqn:Hc.
    + destruct (fill_record dir x ext m ∅) as [info [[]|e]] eqn:Hfill;
        [|discriminate].
      intros Hloop k. rewrite (IH _ Hloop k).
      destruct (decide (k = x)) as [Heq|Hne].
      { subst k. rewrite (decide_True _ _ Hhead), Hc.
        destruct (decide (x ∈ names)); [reflexivity|].
        now rewrite lookup_insert_eq, Hfill. }
      destruct (decide (k ∈ names)) as [Hin|Hin].
      { rewrite decide_True by now apply Htail.
        destruct (candidate dir k) as [[]|]; [reflexivity|].
        now rewrite lookup_insert_ne by congruence. }
      rewrite decide_False by (rewrite Htail; assumption).
      now rewrite lookup_insert_ne by congruence.
    + intros Hloop k. rewrite (IH _ Hloop k).
      destruct (decide (k = x)) as [Heq|Hne].
      { subst k. rewrite (decide_True _ _ Hhead), Hc.
        now destruct (decide (x ∈ names)). }
      destruct (decide (k ∈ names)) as [Hin|Hin].
      { now rewrite decide_True by now apply Htail. }
      now rewrite decide_False by (rewrite Htail; assumption).
Qed.

(** The loop ends normally exactly when the turn of every candidate
    does; the mapping it starts from plays no part in this. *)
Lemma scan_loop_ok_iff dir names (db : gmap string record) :
  (scan_loop dir names db).2 = Ok tt <->
  forall k ext m, k ∈ names -> candidate dir k = Some (ext, m) ->
    (fill_record dir k ext m ∅).2 = Ok tt.
Proof.
  revert db. induction names as [|x names IH]; intros db; cbn [scan_loop].
  - split; [|reflexivity]. intros _ k ext m Hin.
    now apply elem_of_nil in Hin.
  - rewrite scan_entry_candidate.
    destruct (candidate dir x) as [[ext m]|] eqn:Hc.
    + destruct (fill_record dir x ext m ∅) as [info [[]|e]] eqn:Hfill.
      * rewrite IH. split.
        -- intros Hall k ext' m' Hin Hk.
           apply elem_of_cons in Hin as [Heq|Hin]; [subst k|now apply Hall].
           rewrite Hc in Hk. injection Hk as <- <-. now rewrite Hfill.
        -- intros Hall k ext' m' Hin. apply Hall, elem_of_cons. now right.
      * cbn [snd]. split; [discriminate|]. intros Hall.
        specialize (Hall x ext m (proj2 (elem_of_cons _ _ _) (or_introl eq_refl)) Hc).
        now rewrite Hfill in Hall.
    + rewrite IH. split.
      * intros Hall k ext' m' Hin Hk.
        apply elem_of_cons in Hin as [Heq|Hin]; [subst k; congruence | now apply Hall].
      * intros Hall k ext' m' Hin. apply Hall, elem_of_cons. now right.
Qed.

Lemma scan_loop_Raise_tt dir names (db : gmap string record) :
  (scan_loop dir names db).2 = Ok tt ->
  scan_loop dir names db = ((scan_loop dir names db).1, Ok tt).
Proof. destruct (scan_loop dir names db) as [db' o]. now intros [= ->]. Qed.

(** X13.  The mapping after a scan that ends normally, key by key.  Under
    the name of every entry that passes the three tests of the loop (a
    regular file, extension .bin or .zip, the pattern found in the base
    name) is the record built for that file, from an empty record: what the
    mapping held under that name before is replaced, not merged.  Every
    other key keeps its record, also the record of a file that is no longer
    in the directory. *)
Theorem scan_firmwares_result dir (db db' : gmap string record) :
  scan_firmwares dir db = (db', Ok tt) ->
  forall k,
    db' !! k
    = match candidate dir k with
      | Some (ext, m) => Some (fill_record dir k ext m ∅).1
      | None => db !! k
      end.
Proof.
  intros Hscan k. rewrite (scan_loop_lookup _ _ _ _ Hscan k).
  destruct (decide (k ∈ listdir dir)) as [Hin|Hin]; [reflexivity|].
  destruct (candidate dir k) as [[ext m]|] eqn:Hc; [|reflexivity].
  destruct Hin. exact (candidate_listed _ _ _ _ Hc).
Qed.

(** X14.  Scanning again changes nothing: a second scan of the same
    directory, started from the mapping a first scan ended with, ends
    normally with that same mapping. *)
Theorem scan_firmwares_again dir (db db1 : gmap string record) :
  scan_firmwares dir db = (db1, Ok tt) ->
  scan_firmwares dir db1 = (db1, Ok tt).
Proof.
  intros Hscan. unfold scan_firmwares in *.
  assert (Hok : (scan_loop dir (listdir dir) db1).2 = Ok tt).
  { apply scan_loop_ok_iff.
    apply (scan_loop_ok_iff dir (listdir dir) db). now rewrite Hscan. }
  rewrite (scan_loop_Raise_tt _ _ _ Hok). f_equal.
  apply map_eq. intros k.
  rewrite (scan_loop_lookup _ _ _ _ (scan_loop_Raise_tt _ _ _ Hok) k).
  rewrite (scan_loop_lookup _ _ _ _ Hscan k).
  destruct (decide (k ∈ listdir dir)); [|reflexivity].
  now destruct (candidate dir k) as [[ext m]|].
Qed.





End Loop.


Lemma scan_firmwares_result_witness :
  let db' := (@scan_firmwares (demo_lib ∅ None) sensor_dir earlier_db).1 in
  db' !! "old-0.1.0.bin"%string
    = Some {["name"%string := PStr (codes "old")]} /\
  db' !! "sensor-1.2.3.bin"%string
    = Some (@fill_record (demo_lib ∅ None) sensor_dir "sensor-1.2.3.bin"
              (codes ".bin") [codes "sensor"; codes "1.2.3"] ∅).1 /\
  (db' !! "sensor-1.2.3.bin"%string ≫= lookup "note"%string) = None.
Proof.
  cbv zeta.
  assert (Hscan : @scan_firmwares (demo_lib ∅ None) sensor_dir earlier_db
                  = ((@scan_firmwares (demo_lib ∅ None) sensor_dir earlier_db).1,
                     Ok tt))
    by (vm_compute; reflexivity).
  pose proof (@scan_firmwares_result (demo_lib ∅ None) sensor_dir earlier_db
                _ Hscan) as Hx.
  split; [|split].
  - rewrite Hx. vm_compute. reflexivity.
  - rewrite Hx. vm_compute. reflexivity.
  - rewrite Hx. vm_compute. reflexivity.
Defined.

Lemma scan_firmwares_again_witness :
  let db1 := (@scan_firmwares (demo_lib ∅ None) sensor_dir ∅).1 in
  @scan_firmwares (demo_lib ∅ None) sensor_dir db1 = (db1, Ok tt).
Proof.
  cbv zeta.
  apply (@scan_firmwares_again (demo_lib ∅ None) sensor_dir ∅).
  vm_compute. reflexivity.
Defined.

(** ** More on the records *)

Section RecordsMore.

Context `{PyLib}.

(** The record of a turn that ends normally, in full: what the extractor
    left, then the four assignments of the loop. *)
Lemma fill_record_shape dir fw_file ext m info :
  fill_record dir fw_file ext m ∅ = (info, Ok tt) ->
  exists scan r nd data hs,
    fw_types ext = Some scan /\
    scan dir (codes fw_file) {["filename"%string := PStr (codes fw_file)]}
      = (r, Ok tt) /\
    dir_lookup dir (codes fw_file) = Some nd /\
    content nd = Some data /\
    sizeof_fmt (Int (st_size nd)) = Ok hs /\
    info = <["checksum"%string := PStr (md5_of data)]>
             (<["human_size"%string := PStr hs]>
                (<["filename_version"%string := PStr (Re.group 2 m)]>
                   (if bool_decide (is_Some (r !! "name"%string)) then r
                    else <["name"%string := PStr (Re.group 1 m)]> r))).
Proof.
  unfold fill_record. rewrite bind_eq. unfold setitem at 1.
  rewrite insert_empty. rewrite bind_eq.
  destruct (fw_types ext) as [scan|]; [|discriminate].
  destruct (scan dir (codes fw_file) _) as [r [[]|e]] eqn:Hscan; [|discriminate].
  rewrite bind_eq. unfold contains at 1. rewrite bind_eq.
  assert (Hw : when (negb (bool_decide (is_Some (r !! "name"%string))))
                 (setitem "name" (PStr (Re.group 1 m))) r
               = (if bool_decide (is_Some (r !! "name"%string)) then r
                  else <["name"%string := PStr (Re.group 1 m)]> r, Ok tt))
    by (case_bool_decide; reflexivity).
  rewrite Hw. clear Hw.
  rewrite bind_eq. unfold setitem at 1.
  rewrite bind_eq. unfold lift at 1.
  destruct (dir_lookup dir (codes fw_file)) as [nd|] eqn:Hl; [|discriminate].
  rewrite bind_eq. unfold lift at 1.
  destruct (sizeof_fmt (Int (st_size nd))) as [hs|] eqn:Hhs; [|discriminate].
  rewrite bind_eq. unfold setitem at 1.
  rewrite bind_eq. unfold lift at 1. unfold file_md5, read_binary.
  rewrite Hl. destruct nd as [f sz [data|]]; [|discriminate].
  unfold setitem. intros [= <-].
  exists scan, r, (Node f sz (Some data)), data, hs. auto 10.
Qed.

(** The record a bundle leaves when [scan_bundle_firmware] ends normally
    on a record that holds the filename only. *)
Lemma scan_bundle_firmware_record dir fw_file v r :
  scan_bundle_firmware dir fw_file {["filename"%string := v]} = (r, Ok tt) ->
  r !! "filename"%string = Some v /\
  r !! "name"%string = None /\
  r !! "brand"%string = None /\
  (r !! "type"%string = Some (PStr (codes "javascript")) ->
   is_Some (r !! "description"%string) /\ is_Some (r !! "version"%string)).
Proof.
  set (db0 := {["filename"%string := v]} : record).
  assert (H0 : db0 !! "filename"%string = Some v /\
               db0 !! "name"%string = None /\ db0 !! "brand"%string = None /\
               db0 !! "type"%string = None).
  { subst db0. rewrite lookup_singleton_eq.
    rewrite !lookup_singleton_ne by discriminate. auto. }
  destruct H0 as (Hf & Hn & Hb & Ht).
  destruct (scan_bundle_firmware_cases dir fw_file db0)
    as [Hs|[Hs|(bundle & Hs)]]; rewrite Hs.
  - intros [= <-]. repeat split; try assumption; congruence.
  - discriminate.
  - destruct (probe_package_json_cases bundle db0)
      as [Hp|[(d & Hp)|(d & w & Hp)]]; rewrite Hp; intros [= <-].
    + repeat split; try assumption; congruence.
    + rewrite !lookup_insert_ne by discriminate.
      repeat split; try assumption; congruence.
    + rewrite !(lookup_insert_ne _ _ "filename"%string) by discriminate.
      rewrite !(lookup_insert_ne _ _ "name"%string) by discriminate.
      rewrite !(lookup_insert_ne _ _ "brand"%string) by discriminate.
      repeat split; try assumption.
      * rewrite lookup_insert_ne by discriminate.
        rewrite lookup_insert_ne by discriminate.
        rewrite lookup_insert_eq. eauto.
      * rewrite lookup_insert_ne by discriminate.
        rewrite lookup_insert_eq. eauto.
Qed.

(** The type a native image gets. *)
Lemma scan_esp_firmware_type dir fw_file db r :
  scan_esp_firmware dir fw_file db = (r, Ok tt) ->
  r !! "type"%string = Some (PStr (codes "esp8266")).
Proof.
  intros Hs.
  destruct (read_binary dir fw_file) as [data|e] eqn:Hr.
  2:{ revert Hs. unfold scan_esp_firmware. rewrite bind_eq.
      unfold setitem at 1. rewrite bind_eq. unfold lift at 1.
      now rewrite Hr. }
  destruct (scan_esp_firmware_decoded dir fw_file data db Hr)
    as (db3 & F & [(Hs' & _)|(Hs' & _)]); [congruence|].
  replace r with (scan_esp_firmware dir fw_file db).1 by now rewrite Hs.
  rewrite Hs', read_description_frame by discriminate.
  rewrite F by discriminate. apply lookup_insert_eq.
Qed.

(** The record of a candidate after a scan that ends normally. *)
Lemma scan_firmwares_candidate dir (db db' : gmap string record)
    fw_file ext m :
  scan_firmwares dir db = (db', Ok tt) ->
  candidate dir fw_file = Some (ext, m) ->
  exists info,
    db' !! fw_file = Some info /\
    fill_record dir fw_file ext m ∅ = (info, Ok tt).
Proof.
  intros Hscan Hc.
  pose proof (scan_loop_lookup _ _ _ _ Hscan fw_file) as Hl.
  rewrite decide_True in Hl by exact (candidate_listed _ _ _ _ Hc).
  rewrite Hc in Hl.
  assert (Hok : (fill_record dir fw_file ext m ∅).2 = Ok tt).
  { apply (proj1 (scan_loop_ok_iff dir (listdir dir) db));
      [unfold scan_firmwares in Hscan; now rewrite Hscan | | exact Hc].
    exact (candidate_listed _ _ _ _ Hc). }
  exists (fill_record dir fw_file ext m ∅).1. split; [exact Hl|].
  destruct (fill_record dir fw_file ext m ∅) as [info o].
  cbn [snd] in Hok. now rewrite Hok.
Qed.

(** X16.  After a scan that ends normally, every entry that passes the
    three tests of the loop has a record, the file could be read, and the
    record says of the file what the file is: its filename is the name of
    the entry (the key of the record), its human_size is [sizeof_fmt] of
    the size [os.stat] reports, its checksum is the MD5 digest of the
    content; the extractor cannot overwrite any of the three.  The name and
    the filename_version are always there. *)
Theorem scan_firmwares_file_fields dir (db db' : gmap string record)
    fw_file ext m :
  scan_firmwares dir db = (db', Ok tt) ->
  candidate dir fw_file = Some (ext, m) ->
  exists info nd data hs,
    db' !! fw_file = Some info /\
    dir_lookup dir (codes fw_file) = Some nd /\
    content nd = Some data /\
    sizeof_fmt (Int (st_size nd)) = Ok hs /\
    info !! "filename"%string = Some (PStr (codes fw_file)) /\
    info !! "human_size"%string = Some (PStr hs) /\
    info !! "checksum"%string = Some (PStr (md5_of data)) /\
    is_Some (info !! "name"%string) /\
    info !! "filename_version"%string = Some (PStr (Re.group 2 m)).
Proof.
  intros Hscan Hc.
  destruct (scan_firmwares_candidate _ _ _ _ _ _ Hscan Hc)
    as (info & Hinfo & Hfill).
  destruct (fill_record_shape _ _ _ _ _ Hfill)
    as (scan & r & nd & data & hs & Ht & Hr & Hl & Hcont & Hhs & ->).
  eexists; exists nd, data, hs.
  split; [exact Hinfo|]. do 3 (split; [assumption|]).
  assert (Hfile : r !! "filename"%string = Some (PStr (codes fw_file))).
  { destruct (candidate_spec _ _ _ _ Hc) as (_ & base & _ & [-> | ->] & _);
      [rewrite fw_types_bin in Ht | rewrite fw_types_zip in Ht];
      injection Ht as <-.
    - replace r with (scan_esp_firmware dir (codes fw_file)
                        {["filename"%string := PStr (codes fw_file)]}).1
        by now rewrite Hr.
      rewrite scan_esp_firmware_frame; [apply lookup_singleton_eq|].
      unfold esp_fields. rewrite !not_elem_of_cons.
      repeat split; try discriminate. apply not_elem_of_nil.
    - now apply scan_bundle_firmware_record in Hr. }
  repeat split.
  - rewrite !lookup_insert_ne by discriminate.
    case_bool_decide; [exact Hfile|].
    now rewrite lookup_insert_ne by discriminate.
  - rewrite lookup_insert_ne by discriminate. apply lookup_insert_eq.
  - apply lookup_insert_eq.
  - rewrite !lookup_insert_ne by discriminate.
    case_bool_decide as Hn; [exact Hn|]. rewrite lookup_insert_eq. eauto.
  - rewrite !lookup_insert_ne by discriminate. apply lookup_insert_eq.
Qed.

(** X17.  What the kind of the file decides, after a scan that ends
    normally.  The record of a .bin file has the type esp8266.  The record
    of a .zip file has the base name captured from the file name as its
    name and no brand, whatever the archive holds; if its type is
    javascript, it has a description and a version. *)
Theorem scan_firmwares_kind dir (db db' : gmap string record) fw_file ext m :
  scan_firmwares dir db = (db', Ok tt) ->
  candidate dir fw_file = Some (ext, m) ->
  exists info,
    db' !! fw_file = Some info /\
    (ext = codes ".bin" ->
     info !! "type"%string = Some (PStr (codes "esp8266"))) /\
    (ext = codes ".zip" ->
     info !! "name"%string = Some (PStr (Re.group 1 m)) /\
     info !! "brand"%string = None /\
     (info !! "type"%string = Some (PStr (codes "javascript")) ->
      is_Some (info !! "description"%string) /\
      is_Some (info !! "version"%string))).
Proof.
  intros Hscan Hc.
  destruct (scan_firmwares_candidate _ _ _ _ _ _ Hscan Hc)
    as (info & Hinfo & Hfill).
  destruct (fill_record_shape _ _ _ _ _ Hfill)
    as (scan & r & nd & data & hs & Ht & Hr & Hl & Hcont & Hhs & ->).
  eexists. split; [exact Hinfo|]. split.
  - intros ->. rewrite fw_types_bin in Ht. injection Ht as <-.
    apply scan_esp_firmware_type in Hr.
    rewrite !lookup_insert_ne by discriminate.
    case_bool_decide; [exact Hr|].
    now rewrite lookup_insert_ne by discriminate.
  - intros ->. rewrite fw_types_zip in Ht. injection Ht as <-.
    apply scan_bundle_firmware_record in Hr as (_ & Hn & Hb & Hjs).
    rewrite bool_decide_eq_false_2
      by (rewrite Hn; intros [x Hx]; discriminate).
    split; [|split].
    + rewrite !lookup_insert_ne by discriminate. apply lookup_insert_eq.
    + now rewrite !lookup_insert_ne by discriminate.
    + intros Hty. rewrite !lookup_insert_ne in Hty by discriminate.
      destruct (Hjs Hty) as [Hd Hv].
      split; now rewrite !lookup_insert_ne by discriminate.
Qed.

End RecordsMore.

Lemma scan_firmwares_file_fields_witness :
  exists info nd data hs,
    (@scan_firmwares (demo_lib ∅ None) sensor_dir ∅).1
      !! "sensor-1.2.3.bin"%string = Some info /\
    dir_lookup sensor_dir (codes "sensor-1.2.3.bin") = Some nd /\
    content nd = Some data /\
    sizeof_fmt (Int (st_size nd)) = Ok hs /\
    info !! "filename"%string = Some (PStr (codes "sensor-1.2.3.bin")) /\
    info !! "human_size"%string = Some (PStr hs) /\
    info !! "checksum"%string
      = Some (PStr (@md5_of (demo_lib ∅ None) data)) /\
    is_Some (info !! "name"%string) /\
    info !! "filename_version"%string = Some (PStr (codes "1.2.3")).
Proof.
  apply (@scan_firmwares_file_fields (demo_lib ∅ None) sensor_dir ∅
           (@scan_firmwares (demo_lib ∅ None) sensor_dir ∅).1
           "sensor-1.2.3.bin"%string (codes ".bin")
           [codes "sensor"; codes "1.2.3"]);
    vm_compute; reflexivity.
Defined.

Lemma scan_firmwares_kind_witness :
  exists info,
    (@scan_firmwares
       (demo_lib {["package.json"%string := pkg_json]} (Some pkg_manifest))
       tool_dir ∅).1 !! "tool-2.0.0.zip"%string = Some info /\
    info !! "name"%string = Some (PStr (codes "tool")) /\
    info !! "brand"%string = None /\
    is_Some (info !! "description"%string) /\
    is_Some (info !! "version"%string).
Proof.
  destruct (@scan_firmwares_kind
              (demo_lib {["package.json"%string := pkg_json]} (Some pkg_manifest))
              tool_dir ∅
              (@scan_firmwares
                 (demo_lib {["package.json"%string := pkg_json]}
                    (Some pkg_manifest)) tool_dir ∅).1
              "tool-2.0.0.zip"%string (codes ".zip")
              [codes "tool"; codes "2.0.0"])
    as (info & Hinfo & _ & Hzip); [vm_compute; reflexivity | reflexivity |].
  destruct (Hzip eq_refl) as (Hname & Hbrand & Hjs).
  exists info. split; [exact Hinfo|]. split; [exact Hname|].
  split; [exact Hbrand|]. apply Hjs.
  vm_compute in Hinfo. injection Hinfo as <-. vm_compute. reflexivity.
Defined.

(** ** More on the marker patterns: what the quantifiers let through *)

Section ShortMarker.

Context {A : Type} (code : A -> N).
Hypothesis code_inj : forall x y, code x = code y -> x = y.

(** A pattern that starts with an optional or repeated character matches
    where what follows it matches after a run of that character. *)
Lemma match_prefix_item_some q k r prev (s : list A) c c' :
  q = Re.Opt \/ q = Re.Star ->
  Re.match_here code (Re.Atom q k :: r) prev s c = Some c' ->
  exists t u p,
    s = t ++ u /\ Forall (fun x => Re.accepts code k x = true) t /\
    Re.match_here code r p u (pushes t c) = Some c'.
Proof.
  intros [-> | ->]; cbn [Re.match_here].
  - assert (Hhere : Re.match_here code r prev s c = Some c' ->
                    exists t u p, s = t ++ u /\
                      Forall (fun x => Re.accepts code k x = true) t /\
                      Re.match_here code r p u (pushes t c) = Some c')
      by (intros Hm; exists [], s, prev; auto).
    destruct s as [|x s]; [exact Hhere|].
    destruct (Re.accepts code k x) eqn:Hx; [|exact Hhere].
    destruct (Re.match_here code r (Some x) s (Re.push x c)) as [res|] eqn:Hm;
      [|exact Hhere].
    intros [= <-]. exists [x], s, (Some x). auto.
  - intros Hg. destruct (greedy_sound_caps _ _ _ _ _ _ _ Hg)
      as (w & rest & p & -> & Hw & Hc).
    exists w, rest, p. auto.
Qed.

(** The leftmost match is the one at the end of [pre] when every match
    that starts inside [pre] gives the same groups. *)
Lemma search_from_same r (pre s : list A) prev tgt :
  (forall a b p c', pre = a ++ b ->
     Re.match_here code r p (b ++ s) Re.no_caps = Some c' -> c' = tgt) ->
  (forall p, Re.match_here code r p s Re.no_caps = Some tgt) ->
  Re.search_from code r prev (pre ++ s) = Some (Re.closed tgt).
Proof.
  revert prev. induction pre as [|x pre IH]; intros prev Hsame Hhere.
  - apply search_from_here, Hhere.
  - cbn.
    destruct (Re.match_here code r prev (x :: pre ++ s) Re.no_caps)
      as [c'|] eqn:Hm.
    + now rewrite (Hsame [] (x :: pre) prev c' eq_refl Hm).
    + apply IH; [|exact Hhere].
      intros a b p c' -> Hb. now apply (Hsame (x :: a) b p).
Qed.

(** The patterns of the version and brand markers find the span that
    follows the first occurrence of [core], whatever comes before it. *)
Lemma search_marker_core q c core closing (pre span post : list A) :
  q = Re.Opt \/ q = Re.Star ->
  head core <> Some c -> core <> [] ->
  span <> [] ->
  Forall (fun x => code x <> 10) span ->
  (forall a b, pre ++ core = a ++ core ++ b -> b = []) ->
  (forall a b, closing ++ post = a ++ closing ++ b -> a = []) ->
  Re.search code
    (Re.Atom q (Re.CLit (code c)) :: lits code core ++ span_then code closing)
    (pre ++ core ++ span ++ closing ++ post)
  = Some [span].
Proof.
  intros Hq Hhead Hcne Hne Hlf Hfirst Hlast. unfold Re.search.
  set (r := lits code core ++ span_then code closing).
  set (rest := span ++ closing ++ post).
  set (tgt := Re.Caps (@None (list A)) [span]).
  assert (Hcore : forall p, Re.match_here code r p (core ++ rest) Re.no_caps
                            = Some tgt).
  { intros p. subst r rest.
    destruct (match_lits code code_inj core (span_then code closing) p
                (span ++ closing ++ post) Re.no_caps) as [p' Hm].
    rewrite Hm. unfold Re.no_caps. rewrite pushes_closed.
    now rewrite (match_span_then code code_inj). }
  change (Some [span]) with (Some (Re.closed tgt)).
  apply search_from_same.
  - intros a b p c' Hpre Hm.
    apply match_prefix_item_some in Hm as (t & u & p' & Hsplit & Ht & Hm);
      [|exact Hq].
    unfold Re.no_caps in Hm. rewrite pushes_closed in Hm.
    fold (@Re.no_caps A) in Hm.
    apply app_eq_app in Hsplit as [l [[Hb Hu]|[Ht' Hs]]].
    + destruct l as [|y l].
      * cbn in Hu. subst u. rewrite Hcore in Hm. congruence.
      * subst u. unfold r, rest in Hm.
        rewrite (core_not_before code code_inj core pre (a ++ t) (y :: l))
          in Hm; [discriminate | exact Hfirst | | discriminate].
        now rewrite Hpre, Hb, app_assoc.
    + destruct l as [|y l].
      * cbn in Hs. subst u. rewrite Hcore in Hm. congruence.
      * exfalso. subst t. apply Forall_app in Ht as [_ Ht].
        apply Forall_cons in Ht as [Hy _].
        apply (accepts_lit code code_inj) in Hy. subst y.
        destruct core as [|y core']; [congruence|].
        cbn in Hs. injection Hs as <- _. now cbn in Hhead.
  - intros p. destruct core as [|y core']; [congruence|].
    assert (Hy : Re.accepts code (Re.CLit (code c)) y = false).
    { destruct (Re.accepts code (Re.CLit (code c)) y) eqn:Hy; [|reflexivity].
      apply (accepts_lit code code_inj) in Hy. subst y.
      cbn in Hhead. congruence. }
    change ((y :: core') ++ rest) with (y :: (core' ++ rest)).
    rewrite match_prefix_item_skip by assumption.
    apply Hcore.
Qed.

End ShortMarker.

Lemma search_core_only q c core closing data span :
  q = Re.Opt \/ q = Re.Star ->
  head core <> Some c -> core <> [] ->
  bracketed [] core closing data span ->
  Re.search Byte.to_N
    (Re.Atom q (Re.CLit (Byte.to_N c))
     :: lits Byte.to_N core ++ span_then Byte.to_N closing) data
  = Some [span].
Proof.
  intros Hq Hhead Hcore (pre & post & -> & Hne & Hlf & Hfirst & Hlast).
  rewrite app_nil_r in *.
  apply (search_marker_core _ to_N_inj); auto using no_line_feed.
Qed.

(** X18.  The second byte of the version and of the brand opening
    sequence (3f and 2a) is a quantifier to [re], so their patterns do not
    ask for the first two bytes of the sequence: an image that holds only
    the last three bytes of the opening sequence before the span (first
    occurrence, non-empty span without line feed, last closing sequence)
    gets the decoded span as its version, and likewise as its brand,
    whatever bytes come before.  The fields decoded earlier must decode,
    as [scan_esp_firmware] stops at the first that does not. *)
Theorem scan_esp_firmware_short_marker dir fw_file data db :
  read_binary dir fw_file = Ok data ->
  ~ undecodable REGEX_NAME data ->
  let db' := (scan_esp_firmware dir fw_file db).1 in
  (forall span t,
     bracketed [] VERSION_CORE VERSION_CLOSE data span ->
     utf8_decode span = Some t ->
     db' !! "version"%string = Some (PStr t)) /\
  (forall span t,
     ~ undecodable REGEX_VERSION data ->
     bracketed [] BRAND_CORE BRAND_CLOSE data span ->
     utf8_decode span = Some t ->
     db' !! "brand"%string = Some (PStr t)).
Proof.
  intros Hr Hname. cbv zeta.
  rewrite (scan_esp_firmware_read _ _ _ _ Hr).
  set (db0 := <["type"%string := PStr (codes "esp8266")]> db).
  rewrite bind_eq.
  destruct (set_decoded_cases "name" (Re.search Byte.to_N REGEX_NAME data) db0)
    as [[db1 H1]|[_ Hu]]; [|now destruct Hname].
  rewrite H1, bind_eq. split.
  - intros span t Hb Hd.
    assert (Hs : Re.search Byte.to_N REGEX_VERSION data = Some [span]).
    { rewrite REGEX_VERSION_shape.
      apply search_core_only; [now left | discriminate | discriminate | exact Hb]. }
    rewrite Hs.
    rewrite (set_decoded_field "version" (Some t)) by eauto.
    rewrite bind_eq.
    destruct (set_decoded "brand" (Re.search Byte.to_N REGEX_BRAND data)
                (<["version"%string := PStr t]> db1)) as [db3 o] eqn:H3.
    assert (F3 : db3 !! "version"%string = Some (PStr t)).
    { rewrite (set_decoded_frame _ _ _ _ _ "version"%string H3)
        by (left; discriminate).
      apply lookup_insert_eq. }
    destruct o as [[]|e]; [|exact F3].
    now rewrite read_description_frame by discriminate.
  - intros span t Hversion Hb Hd.
    destruct (set_decoded_cases "version"
                (Re.search Byte.to_N REGEX_VERSION data) db1)
      as [[db2 H2]|[_ Hu]]; [|now destruct Hversion].
    rewrite H2, bind_eq.
    assert (Hs : Re.search Byte.to_N REGEX_BRAND data = Some [span]).
    { rewrite REGEX_BRAND_shape.
      apply search_core_only; [now right | discriminate | discriminate | exact Hb]. }
    rewrite Hs.
    rewrite (set_decoded_field "brand" (Some t)) by eauto.
    rewrite read_description_frame by discriminate.
    apply lookup_insert_eq.
Qed.

Lemma scan_esp_firmware_short_marker_witness :
  let db' := (scan_esp_firmware short_marker_dir (codes "fw-1.0.0.bin") ∅).1 in
  db' !! "version"%string = Some (PStr (codes "0.9")) /\
  db' !! "brand"%string = Some (PStr (codes "Acme")).
Proof.
  cbv zeta.
  assert (Hn : ~ undecodable REGEX_NAME short_marker_image)
    by (intros (m & Hs & _); vm_compute in Hs; discriminate).
  assert (Hv : ~ undecodable REGEX_VERSION short_marker_image)
    by (intros (m & Hs & Hd); vm_compute in Hs; injection Hs as <-;
        vm_compute in Hd; discriminate).
  destruct (scan_esp_firmware_short_marker short_marker_dir
              (codes "fw-1.0.0.bin") short_marker_image ∅ eq_refl Hn)
    as [Hversion Hbrand].
  split.
  - apply (Hversion (bytes_of "0.9")); [|reflexivity].
    exists (bytes_of "fw"), (BRAND_CORE ++ bytes_of "Acme" ++ BRAND_CLOSE).
    split; [reflexivity|]. split; [discriminate|].
    split; [repeat constructor; discriminate|].
    split; [apply only_at_end | apply only_at_start]; vm_compute; reflexivity.
  - apply (Hbrand (bytes_of "Acme")); [exact Hv | | reflexivity].
    exists (bytes_of "fw" ++ VERSION_CORE ++ bytes_of "0.9" ++ VERSION_CLOSE), [].
    split; [reflexivity|]. split; [discriminate|].
    split; [repeat constructor; discriminate|].
    split; [apply only_at_end | apply only_at_start]; vm_compute; reflexivity.
Defined.

(** ** The exceptions of a scan *)




Section Exceptions.

Context `{PyLib}.




End Exceptions.


(** ** [sizeof_fmt] below zero *)

Lemma float_of_int_opp z :
  float_of_int (- z) = option_map Qopp (float_of_int z).
Proof.
  unfold float_of_int. rewrite Z.abs_opp, Z.sgn_opp.
  destruct (Z.abs z <? 2 ^ 53)%Z; [reflexivity|].
  cbv zeta.
  set (v := (_ * 2 ^ (Z.log2 (Z.abs z) - 52))%Z).
  destruct (v <? 2 ^ 1024)%Z; [|reflexivity].
  cbn [option_map]. unfold Qopp, inject_Z. cbn [Qnum Qden].
  now rewrite Z.mul_opp_l.
Qed.

Lemma fmt_1f_opp q :
  (0 < Qnum q)%Z -> fmt_1f (- q) = codes "-" ++ fmt_1f q.
Proof.
  intros Hq. destruct q as [n d]. cbn [Qnum] in Hq.
  unfold fmt_1f, Qltb, Qabs, Qopp. cbn [Qnum Qden].
  rewrite Z.abs_opp.
  replace (- n * 1 <? 0 * Z.pos d)%Z with true
    by (symmetry; apply Z.ltb_lt; lia).
  replace (n * 1 <? 0 * Z.pos d)%Z with false
    by (symmetry; apply Z.ltb_ge; lia).
  reflexivity.
Qed.

Lemma sizeof_loop_opp units q suffix s :
  (0 < Qnum q)%Z ->
  sizeof_loop units (Float q) suffix = Ok s ->
  sizeof_loop units (Float (- q)) suffix = Ok (codes "-" ++ s).
Proof.
  revert q. induction units as [|unit units IH]; intros q Hq.
  - cbn [sizeof_loop]. unfold format_1f, to_float.
    intros [= <-]. now rewrite fmt_1f_opp, <- app_assoc.
  - rewrite !sizeof_loop_cons.
    assert (Habs : abs_lt_1024 (Float (- q)) = abs_lt_1024 (Float q)).
    { destruct q as [n d]. unfold abs_lt_1024, Qabs, Qopp. cbn [Qnum Qden].
      now rewrite Z.abs_opp. }
    rewrite Habs. destruct (abs_lt_1024 (Float q)).
    + unfold format_1f, to_float. intros [= <-].
      now rewrite fmt_1f_opp, <- app_assoc.
    + unfold div_1024, to_float.
      assert (Hdiv : (- q / (1024 # 1))%Q = (- (q / (1024 # 1)))%Q).
      { destruct q as [n d]. unfold Qdiv, Qmult, Qinv, Qopp.
        cbn [Qnum Qden]. now rewrite Z.mul_opp_l. }
      rewrite Hdiv. apply IH.
      destruct q as [n d]. unfold Qdiv, Qmult, Qinv. cbn [Qnum Qden] in *.
      lia.
Qed.

(** X20.  [sizeof_fmt] goes by the magnitude: a negative count is
    printed as its absolute value is, with a minus sign in front. *)
Theorem sizeof_fmt_negative (n : Z) s :
  (0 < n)%Z ->
  sizeof_fmt (Int n) = Ok s ->
  sizeof_fmt (Int (- n)) = Ok (codes "-" ++ s).
Proof.
  intros Hn. unfold sizeof_fmt, UNITS. rewrite !sizeof_loop_cons.
  unfold abs_lt_1024, format_1f, div_1024, to_float.
  rewrite Z.abs_opp, float_of_int_opp.
  destruct (float_of_int n) as [q|] eqn:Hf; cbn [option_map].
  2:{ now destruct (Z.abs n <? 1024)%Z. }
  assert (Hq : (0 < Qnum q)%Z).
  { revert Hf. unfold float_of_int. rewrite Z.abs_eq by lia.
    destruct (n <? 2 ^ 53)%Z eqn:Hsmall; [now intros [= <-]|].
    cbv zeta. apply Z.ltb_ge in Hsmall.
    set (e := (Z.log2 n - 52)%Z).
    assert (He : (0 < e)%Z).
    { subst e. assert (53 <= Z.log2 n)%Z; [|lia].
      apply Z.log2_le_pow2; lia. }
    set (qq := (n / 2 ^ e)%Z).
    assert (Hqq : (0 < qq)%Z).
    { subst qq. apply Z.div_str_pos. split; [apply Z.pow_pos_nonneg; lia|].
      apply Z.le_trans with (2 ^ Z.log2 n)%Z;
        [apply Z.pow_le_mono_r; lia | apply Z.log2_spec; lia]. }
    set (q' := if (_ || _)%bool then (qq + 1)%Z else qq).
    assert (Hq' : (0 < q')%Z) by (subst q'; destruct (_ || _)%bool; lia).
    destruct (q' * 2 ^ e <? 2 ^ 1024)%Z; [|discriminate].
    intros [= <-]. cbn [Qnum inject_Z].
    rewrite Z.sgn_pos by lia.
    assert (0 < 2 ^ e)%Z by (apply Z.pow_pos_nonneg; lia). nia. }
  destruct (Z.abs n <? 1024)%Z.
  - intros [= <-]. now rewrite fmt_1f_opp, <- app_assoc.
  - assert (Hdiv : (- q / (1024 # 1))%Q = (- (q / (1024 # 1)))%Q).
    { destruct q as [a d]. unfold Qdiv, Qmult, Qinv, Qopp.
      cbn [Qnum Qden]. now rewrite Z.mul_opp_l. }
    rewrite Hdiv. apply sizeof_loop_opp.
    destruct q as [a d]. unfold Qdiv, Qmult, Qinv. cbn [Qnum Qden] in *. lia.
Qed.

Lemma sizeof_fmt_negative_witness :
  sizeof_fmt (Int (- 1536)) = Ok (codes "-" ++ codes "1.5KB").
Proof.
  apply (sizeof_fmt_negative 1536%Z (codes "1.5KB"));
    [lia | vm_compute; reflexivity].
Defined.
